(** * VVM-C: the C interface between a virtual machine and its Host

    A shallow embedding of [vvm.h].  The header is the whole interface: value
    types, the message and result records, the status codes and the table of
    Host callbacks.  The first part of this file follows the header, with the
    layout of a result and the accessors of its optional data; the second
    part models the two sides the header only describes (a machine that
    executes code against the callback table, a Host stub and the receiver of
    a result). *)

From Stdlib Require Import ZArith Lia.
From Stdlib.Strings Require Import Byte.
From stdpp Require Import base list strings gmap.

Local Open Scope Z_scope.

#[global] Instance byte_eq_dec : EqDecision byte := Byte.byte_eq_dec.

#[global] Instance byte_countable : Countable byte :=
  inj_countable Byte.to_N Byte.of_N Byte.of_to_N.

(** ** Value types *)

(** [enum { VVM_ABI_VERSION = 0 }] *)
Definition VVM_ABI_VERSION : Z := 0.

(** [struct vvm_uint256be { uint8_t bytes[32]; }]: [bytes[0]] is the most
    significant byte. *)
Record vvm_uint256be := mk_uint256be { uint256be_bytes : list byte }.

(** [struct vvm_address { uint8_t bytes[20]; }] *)
Record vvm_address := mk_address { address_bytes : list byte }.

#[global] Instance vvm_uint256be_eq_dec : EqDecision vvm_uint256be.
Proof. solve_decision. Defined.

#[global] Instance vvm_address_eq_dec : EqDecision vvm_address.
Proof. solve_decision. Defined.

#[global] Instance vvm_uint256be_countable : Countable vvm_uint256be :=
  inj_countable' uint256be_bytes mk_uint256be (fun w => match w with mk_uint256be _ => eq_refl end).

#[global] Instance vvm_address_countable : Countable vvm_address :=
  inj_countable' address_bytes mk_address (fun a => match a with mk_address _ => eq_refl end).

(** Modelled from the spec: the header has no function that reads a word as
    an integer; it declares the bytes and says that [bytes[0]] is the most
    significant one ("Big-endian word: exactly 32 bytes, byte 0 most
    significant").  This is the integer a byte string stands for under that
    reading. *)
Definition be_to_Z (bs : list byte) : Z :=
  fold_left (fun acc b => acc * 256 + Z.of_N (Byte.to_N b)) bs 0.

Definition uint256be_value (w : vvm_uint256be) : Z := be_to_Z (uint256be_bytes w).

Definition zero_uint256be : vvm_uint256be := mk_uint256be (replicate 32 x00).

(** Modelled from the spec: the other direction of the same reading, which
    the header has no function for either: the [n] bytes that stand for an
    integer, most significant byte first. *)
Definition byte_of_Z (z : Z) : byte :=
  default x00 (Byte.of_N (Z.to_N (z mod 256))).

Fixpoint be_of_Z (n : nat) (z : Z) : list byte :=
  match n with
  | O => []
  | S n' => be_of_Z n' (z / 256) ++ [byte_of_Z z]
  end.

(** ** Enumerations *)

Inductive vvm_call_kind :=
| VVM_CALL
| VVM_DELEGATECALL
| VVM_CALLCODE
| VVM_CREATE.

Definition call_kind_value (k : vvm_call_kind) : Z :=
  match k with
  | VVM_CALL => 0
  | VVM_DELEGATECALL => 1
  | VVM_CALLCODE => 2
  | VVM_CREATE => 3
  end.

#[global] Instance vvm_call_kind_eq_dec : EqDecision vvm_call_kind.
Proof. solve_decision. Defined.

(** [enum vvm_flags { VVM_STATIC = 1 }] *)
Definition VVM_STATIC : Z := 1.

Inductive vvm_status_code :=
| VVM_SUCCESS
| VVM_FAILURE
| VVM_OUT_OF_GAS
| VVM_BAD_INSTRUCTION
| VVM_BAD_JUMP_DESTINATION
| VVM_STACK_OVERFLOW
| VVM_STACK_UNDERFLOW
| VVM_REVERT
| VVM_STATIC_MODE_ERROR
| VVM_REJECTED
| VVM_INTERNAL_ERROR.

Definition status_code_value (s : vvm_status_code) : Z :=
  match s with
  | VVM_SUCCESS => 0
  | VVM_FAILURE => 1
  | VVM_OUT_OF_GAS => 2
  | VVM_BAD_INSTRUCTION => 3
  | VVM_BAD_JUMP_DESTINATION => 4
  | VVM_STACK_OVERFLOW => 5
  | VVM_STACK_UNDERFLOW => 6
  | VVM_REVERT => 7
  | VVM_STATIC_MODE_ERROR => 8
  | VVM_REJECTED => -1
  | VVM_INTERNAL_ERROR => -2
  end.

#[global] Instance vvm_status_code_eq_dec : EqDecision vvm_status_code.
Proof. solve_decision. Defined.

(** The enumerators in declaration order. *)
Definition all_status_codes : list vvm_status_code :=
  [VVM_SUCCESS; VVM_FAILURE; VVM_OUT_OF_GAS; VVM_BAD_INSTRUCTION;
   VVM_BAD_JUMP_DESTINATION; VVM_STACK_OVERFLOW; VVM_STACK_UNDERFLOW;
   VVM_REVERT; VVM_STATIC_MODE_ERROR; VVM_REJECTED; VVM_INTERNAL_ERROR].

(** The codes that say how the executed code itself ended, as opposed to the
    two codes by which an implementation reports on itself. *)
Definition execution_outcome_codes : list vvm_status_code :=
  [VVM_SUCCESS; VVM_FAILURE; VVM_OUT_OF_GAS; VVM_BAD_INSTRUCTION;
   VVM_BAD_JUMP_DESTINATION; VVM_STACK_OVERFLOW; VVM_STACK_UNDERFLOW;
   VVM_REVERT; VVM_STATIC_MODE_ERROR].

Definition integration_codes : list vvm_status_code :=
  [VVM_REJECTED; VVM_INTERNAL_ERROR].

Inductive vvm_revision :=
| VVM_FRONTIER
| VVM_HOMESTEAD
| VVM_TANGERINE_WHISTLE
| VVM_SPURIOUS_DRAGON
| VVM_BYZANTIUM
| VVM_CONSTANTINOPLE.

Definition revision_value (r : vvm_revision) : Z :=
  match r with
  | VVM_FRONTIER => 0
  | VVM_HOMESTEAD => 1
  | VVM_TANGERINE_WHISTLE => 2
  | VVM_SPURIOUS_DRAGON => 3
  | VVM_BYZANTIUM => 4
  | VVM_CONSTANTINOPLE => 5
  end.

(** ** Records *)

(** A pointer to a byte buffer is [None] when it is [NULL] and otherwise
    carries the bytes it points to; the size the C code passes next to it is a
    field of its own. *)
Definition buffer_ptr := option (list byte).

(** The address of a function; [None] is [NULL]. *)
Definition fn_ptr := option N.

Record vvm_message := mk_message {
  destination : vvm_address;
  sender : vvm_address;
  value : vvm_uint256be;
  input_data : buffer_ptr;
  input_size : Z;
  code_hash : vvm_uint256be;
  gas : Z;
  depth : Z;
  kind : vvm_call_kind;
  flags : Z
}.

Record vvm_tx_context := mk_tx_context {
  tx_gas_price : vvm_uint256be;
  tx_origin : vvm_address;
  block_coinbase : vvm_address;
  block_number : Z;
  block_timestamp : Z;
  block_gas_limit : Z;
  block_difficulty : vvm_uint256be
}.

Record vvm_result := mk_result {
  status_code : vvm_status_code;
  gas_left : Z;
  output_data : buffer_ptr;
  output_size : Z;
  release : fn_ptr;
  create_address : vvm_address;
  padding : list byte
}.

(** What the header asks of a result: [gas_left] "MUST be 0" unless the status
    is SUCCESS or REVERT, only those two carry output, and [output_size]
    "MUST be 0" if [output_data] is [NULL]. *)
Definition result_invariant (r : vvm_result) : Prop :=
  (status_code r <> VVM_SUCCESS -> status_code r <> VVM_REVERT ->
   gas_left r = 0 /\ output_data r = None /\ output_size r = 0) /\
  (output_data r = None -> output_size r = 0).

(** [flags & VVM_STATIC] *)
Definition is_static (m : vvm_message) : bool :=
  negb (Z.land (flags m) VVM_STATIC =? 0).

Definition set_value (v : vvm_uint256be) (m : vvm_message) : vvm_message :=
  mk_message (destination m) (sender m) v (input_data m) (input_size m)
             (code_hash m) (gas m) (depth m) (kind m) (flags m).

(** ** The callback typedefs as C declares them *)

Inductive ctype :=
| Tvoid
| Tint
| Tint64
| Tsize_t
| Tuint8
| Tstruct (name : string)
| Tptr (pointee_const : bool) (pointee : ctype)
| Tarray (elem_const : bool) (elem : ctype).

#[global] Instance ctype_eq_dec : EqDecision ctype.
Proof. solve_decision. Defined.

(** One parameter of a function type.  [param_out] records the [@param[out]]
    mark of the header's documentation. *)
Record c_param := mk_param {
  param_name : string;
  param_type : ctype;
  param_out : bool
}.

Record c_fn_type := mk_fn_type {
  fn_return : ctype;
  fn_params : list c_param
}.

Definition context_ptr : ctype := Tptr false (Tstruct "vvm_context").
Definition address_cptr : ctype := Tptr true (Tstruct "vvm_address").
Definition uint256be_cptr : ctype := Tptr true (Tstruct "vvm_uint256be").
Definition uint256be_ptr : ctype := Tptr false (Tstruct "vvm_uint256be").

Definition p_in (n : string) (t : ctype) : c_param := mk_param n t false.
Definition p_out (n : string) (t : ctype) : c_param := mk_param n t true.

Definition vvm_get_tx_context_fn : c_fn_type :=
  mk_fn_type Tvoid
    [p_out "result" (Tptr false (Tstruct "vvm_tx_context"));
     p_in "context" context_ptr].

Definition vvm_get_block_hash_fn : c_fn_type :=
  mk_fn_type Tvoid
    [p_out "result" uint256be_ptr; p_in "context" context_ptr;
     p_in "number" Tint64].

Definition vvm_account_exists_fn : c_fn_type :=
  mk_fn_type Tint [p_in "context" context_ptr; p_in "address" address_cptr].

Definition vvm_get_storage_fn : c_fn_type :=
  mk_fn_type Tvoid
    [p_out "result" uint256be_ptr; p_in "context" context_ptr;
     p_in "address" address_cptr; p_in "key" uint256be_cptr].

Definition vvm_set_storage_fn : c_fn_type :=
  mk_fn_type Tvoid
    [p_in "context" context_ptr; p_in "address" address_cptr;
     p_in "key" uint256be_cptr; p_in "value" uint256be_cptr].

Definition vvm_get_balance_fn : c_fn_type :=
  mk_fn_type Tvoid
    [p_out "result" uint256be_ptr; p_in "context" context_ptr;
     p_in "address" address_cptr].

Definition vvm_get_code_fn : c_fn_type :=
  mk_fn_type Tsize_t
    [p_out "result_code" (Tptr false (Tptr true Tuint8));
     p_in "context" context_ptr; p_in "address" address_cptr].

Definition vvm_selfdestruct_fn : c_fn_type :=
  mk_fn_type Tvoid
    [p_in "context" context_ptr; p_in "address" address_cptr;
     p_in "beneficiary" address_cptr].

Definition vvm_emit_log_fn : c_fn_type :=
  mk_fn_type Tvoid
    [p_in "context" context_ptr; p_in "address" address_cptr;
     p_in "data" (Tptr true Tuint8); p_in "data_size" Tsize_t;
     p_in "topics" (Tarray true (Tstruct "vvm_uint256be"));
     p_in "topics_count" Tsize_t].

Definition vvm_call_fn : c_fn_type :=
  mk_fn_type Tvoid
    [p_out "result" (Tptr false (Tstruct "vvm_result"));
     p_in "context" context_ptr;
     p_in "msg" (Tptr true (Tstruct "vvm_message"))].

(** [struct vvm_context_fn_table]: the members in declaration order, each with
    the function type its typedef names. *)
Definition vvm_context_fn_table_members : list (string * c_fn_type) :=
  [("account_exists", vvm_account_exists_fn);
   ("get_storage", vvm_get_storage_fn);
   ("set_storage", vvm_set_storage_fn);
   ("get_balance", vvm_get_balance_fn);
   ("get_code", vvm_get_code_fn);
   ("selfdestruct", vvm_selfdestruct_fn);
   ("call", vvm_call_fn);
   ("get_tx_context", vvm_get_tx_context_fn);
   ("get_block_hash", vvm_get_block_hash_fn);
   ("emit_log", vvm_emit_log_fn)].

(** The type of the first parameter. *)
Definition first_param_type (f : c_fn_type) : option ctype :=
  param_type <$> head (fn_params f).

(** The parameters through which the callee receives something: all but the
    ones marked [@param[out]]. *)
Definition input_params (f : c_fn_type) : list c_param :=
  filter (fun p => param_out p = false) (fn_params f).

Definition first_input_type (f : c_fn_type) : option ctype :=
  param_type <$> head (input_params f).

(** The type of the release function of a result: it takes a pointer to the
    [const] result and returns nothing. *)
Definition vvm_release_result_fn : c_fn_type :=
  mk_fn_type Tvoid [p_in "result" (Tptr true (Tstruct "vvm_result"))].

(** The parameters through which the callee can write to what the caller
    holds: the pointers and arrays whose element type is not [const]. *)
Definition writable_type (t : ctype) : bool :=
  match t with
  | Tptr false _ | Tarray false _ => true
  | _ => false
  end.

Definition writable_params (f : c_fn_type) : list c_param :=
  filter (fun p => writable_type (param_type p) = true) (fn_params f).

(** The ways a function gives something back: its return value, if it is not
    [void], and its output parameters. *)
Definition result_channels (f : c_fn_type) : nat :=
  ((if decide (fn_return f = Tvoid) then 0 else 1)
   + length (filter (fun p => param_out p = true) (fn_params f)))%nat.

(** The position of the context pointer among the parameters. *)
Fixpoint context_position_from (i : nat) (ps : list c_param) : option nat :=
  match ps with
  | [] => None
  | p :: ps' =>
      if decide (param_type p = context_ptr) then Some i
      else context_position_from (S i) ps'
  end.

Definition context_position (f : c_fn_type) : option nat :=
  context_position_from 0 (fn_params f).

(** ** Object layout *)

Module Layout.
Local Open Scope nat_scope.

(** What the C implementation fixes: the size of a data pointer and of a
    function pointer, of [size_t] and of an enumeration, and the alignment of
    [int64_t] inside a struct.  [uint8_t], [int32_t], [uint32_t] and
    [int64_t] have the sizes their names say; a pointer, a [size_t], an
    enumeration and a 32-bit integer are aligned to their size. *)
Record data_model := mk_data_model {
  pointer_size : nat;
  size_t_size : nat;
  enum_size : nat;
  int64_align : nat
}.

(** 64-bit targets (x86-64, AArch64): 8-byte pointers and [size_t],
    [int]-sized enumerations, [int64_t] aligned to 8. *)
Definition lp64 : data_model := mk_data_model 8 8 4 8.

(** 32-bit x86 (System V): 4-byte pointers and [size_t], and [int64_t]
    aligned to 4 inside a struct. *)
Definition i386 : data_model := mk_data_model 4 4 4 4.

(** 32-bit targets that align [int64_t] to 8 (ARM EABI). *)
Definition ilp32_aligned : data_model := mk_data_model 4 4 4 8.

#[local] Set Warnings "-register-all".

Inductive ltype :=
| Luint8
| Lint32
| Luint32
| Lint64
| Lenum
| Lsize_t
| Lpointer
| Larray (elem : ltype) (n : nat)
| Lstruct (fields : list (string * ltype))
| Lunion (members : list (string * ltype)).

(** The least multiple of [a] that is at least [off]. *)
Definition align_up (off a : nat) : nat := ((off + a - 1) / a) * a.

Fixpoint alignof (dm : data_model) (t : ltype) : nat :=
  match t with
  | Luint8 => 1
  | Lint32 | Luint32 => 4
  | Lint64 => int64_align dm
  | Lenum => enum_size dm
  | Lsize_t => size_t_size dm
  | Lpointer => pointer_size dm
  | Larray e _ => alignof dm e
  | Lstruct fs | Lunion fs =>
      (fix go (fs : list (string * ltype)) : nat :=
         match fs with
         | [] => 1
         | f :: fs' => Nat.max (alignof dm (snd f)) (go fs')
         end) fs
  end.

Fixpoint sizeof (dm : data_model) (t : ltype) : nat :=
  match t with
  | Luint8 => 1
  | Lint32 | Luint32 => 4
  | Lint64 => 8
  | Lenum => enum_size dm
  | Lsize_t => size_t_size dm
  | Lpointer => pointer_size dm
  | Larray e n => sizeof dm e * n
  | Lstruct fs =>
      align_up
        ((fix go (off : nat) (fs : list (string * ltype)) : nat :=
            match fs with
            | [] => off
            | f :: fs' =>
                go (align_up off (alignof dm (snd f)) + sizeof dm (snd f)) fs'
            end) 0 fs)
        (alignof dm t)
  | Lunion fs =>
      align_up
        ((fix go (fs : list (string * ltype)) : nat :=
            match fs with
            | [] => 0
            | f :: fs' => Nat.max (sizeof dm (snd f)) (go fs')
            end) fs)
        (alignof dm t)
  end.

(** The offsets of the fields of a struct, in declaration order: each field
    starts at the first offset after its predecessor that its alignment
    allows. *)
Fixpoint field_offsets (dm : data_model) (off : nat)
    (fs : list (string * ltype)) : list (string * nat) :=
  match fs with
  | [] => []
  | f :: fs' =>
      let o := align_up off (alignof dm (snd f)) in
      (fst f, o) :: field_offsets dm (o + sizeof dm (snd f)) fs'
  end.

Fixpoint assoc (name : string) (l : list (string * nat)) : option nat :=
  match l with
  | [] => None
  | (n, o) :: l' => if decide (n = name) then Some o else assoc name l'
  end.

Definition offsetof (dm : data_model) (fs : list (string * ltype))
    (name : string) : option nat :=
  assoc name (field_offsets dm 0 fs).

Definition vvm_address_t : ltype := Lstruct [("bytes", Larray Luint8 20)].

Definition vvm_uint256be_t : ltype := Lstruct [("bytes", Larray Luint8 32)].

Definition vvm_result_fields : list (string * ltype) :=
  [("status_code", Lenum);
   ("gas_left", Lint64);
   ("output_data", Lpointer);
   ("output_size", Lsize_t);
   ("release", Lpointer);
   ("create_address", vvm_address_t);
   ("padding", Larray Luint8 4)].

Definition vvm_result_t : ltype := Lstruct vvm_result_fields.

(** [union vvm_result_optional_data { uint8_t bytes[24]; void* pointer; }] *)
Definition vvm_result_optional_data_t : ltype :=
  Lunion [("bytes", Larray Luint8 24); ("pointer", Lpointer)].

(** Offset of a field of [struct vvm_result]; [0] for a name that is not a
    field. *)
Definition result_offset (dm : data_model) (name : string) : nat :=
  default 0 (offsetof dm vvm_result_fields name).

(** The other records of the header. *)
Definition vvm_message_fields : list (string * ltype) :=
  [("destination", vvm_address_t);
   ("sender", vvm_address_t);
   ("value", vvm_uint256be_t);
   ("input_data", Lpointer);
   ("input_size", Lsize_t);
   ("code_hash", vvm_uint256be_t);
   ("gas", Lint64);
   ("depth", Lint32);
   ("kind", Lenum);
   ("flags", Luint32)].

Definition vvm_tx_context_fields : list (string * ltype) :=
  [("tx_gas_price", vvm_uint256be_t);
   ("tx_origin", vvm_address_t);
   ("block_coinbase", vvm_address_t);
   ("block_number", Lint64);
   ("block_timestamp", Lint64);
   ("block_gas_limit", Lint64);
   ("block_difficulty", vvm_uint256be_t)].

(** [struct vvm_context_fn_table]: one function pointer per member. *)
Definition vvm_context_fn_table_fields : list (string * ltype) :=
  (fun f => (fst f, Lpointer)) <$> vvm_context_fn_table_members.

(** [struct vvm_context { const struct vvm_context_fn_table* fn_table; }] *)
Definition vvm_context_fields : list (string * ltype) :=
  [("fn_table", Lpointer)].

(** The bytes of a struct that belong to no field. *)
Definition padding_bytes (dm : data_model) (fs : list (string * ltype)) : nat :=
  sizeof dm (Lstruct fs) - sum_list ((fun f => sizeof dm (snd f)) <$> fs).

End Layout.

(** ** Memory, and the accessors of the optional data *)

Module Mem.
Local Open Scope nat_scope.
Import Layout.

(** Flat byte-addressed memory; a pointer is an index into it. *)
Definition memory := list byte.

Definition load (m : memory) (p n : nat) : list byte := take n (drop p m).

Definition store (m : memory) (p : nat) (bs : list byte) : memory :=
  take p m ++ bs ++ drop (p + length bs) m.

(** The address of [result->create_address], retyped as a pointer to
    [union vvm_result_optional_data]. *)
Definition vvm_get_optional_data (result : nat) : nat :=
  result + result_offset lp64 "create_address".

Definition vvm_get_const_optional_data (result : nat) : nat :=
  result + result_offset lp64 "create_address".

(** Reading and writing [->bytes] through the pointer the accessors give. *)
Definition read_optional_bytes (m : memory) (result : nat) : list byte :=
  load m (vvm_get_const_optional_data result)
       (sizeof lp64 (Larray Luint8 24)).

Definition write_optional_bytes (m : memory) (result : nat)
    (payload : list byte) : memory :=
  store m (vvm_get_optional_data result) payload.

(** [result->create_address = addr] and the reserved bytes. *)
Definition write_create_address (m : memory) (result : nat)
    (addr : list byte) : memory :=
  store m (result + result_offset lp64 "create_address") addr.

Definition read_create_address (m : memory) (result : nat) : list byte :=
  load m (result + result_offset lp64 "create_address")
       (sizeof lp64 vvm_address_t).

Definition read_padding (m : memory) (result : nat) : list byte :=
  load m (result + result_offset lp64 "padding")
       (sizeof lp64 (Larray Luint8 4)).

(** [result->padding = pad] *)
Definition write_padding (m : memory) (result : nat) (pad : list byte)
    : memory :=
  store m (result + result_offset lp64 "padding") pad.

(** Reading and writing [->pointer], the other member of the union, through
    the pointer the accessors give.  A pointer value is the bytes of its
    object representation. *)
Definition read_optional_pointer (m : memory) (result : nat) : list byte :=
  load m (vvm_get_const_optional_data result) (sizeof lp64 Lpointer).

Definition write_optional_pointer (m : memory) (result : nat)
    (ptr : list byte) : memory :=
  store m (vvm_get_optional_data result) ptr.

End Mem.

(** * The two sides of the interface *)

(** ** The callback table as functions

    [struct vvm_context] holds the table and, optionally, data of the Host.
    Every callback receives the context pointer, so it can read and update
    that data: with [H] the type of the Host data, a callback is a function
    that takes the data and gives it back next to its result. *)

Record vvm_context_fn_table (H : Type) := mk_fn_table {
  account_exists : vvm_address -> H -> bool * H;
  get_storage : vvm_address -> vvm_uint256be -> H -> vvm_uint256be * H;
  set_storage : vvm_address -> vvm_uint256be -> vvm_uint256be -> H -> H;
  get_balance : vvm_address -> H -> vvm_uint256be * H;
  (** the flag says whether [result_code] is given; the size is returned, and
      the code only if asked for *)
  get_code : bool -> vvm_address -> H -> (Z * buffer_ptr) * H;
  selfdestruct : vvm_address -> vvm_address -> H -> H;
  call : vvm_message -> H -> vvm_result * H;
  get_tx_context : H -> vvm_tx_context * H;
  get_block_hash : Z -> H -> vvm_uint256be * H;
  emit_log : vvm_address -> list byte -> list vvm_uint256be -> H -> H
}.

Arguments account_exists {H}.
Arguments get_storage {H}.
Arguments set_storage {H}.
Arguments get_balance {H}.
Arguments get_code {H}.
Arguments selfdestruct {H}.
Arguments call {H}.
Arguments get_tx_context {H}.
Arguments get_block_hash {H}.
Arguments emit_log {H}.

Record vvm_context (H : Type) := mk_context {
  fn_table : vvm_context_fn_table H;
  host_data : H
}.

Arguments fn_table {H}.
Arguments host_data {H}.

(** ** A machine executing code against the table *)

(** What running code can ask of the Host: one request per callback of the
    table, with the arguments of the callback. *)
Inductive request :=
| AccountExists (a : vvm_address)
| GetStorage (a : vvm_address) (k : vvm_uint256be)
| SetStorage (a : vvm_address) (k v : vvm_uint256be)
| GetBalance (a : vvm_address)
| GetCode (want_code : bool) (a : vvm_address)
| Selfdestruct (a beneficiary : vvm_address)
| Call (m : vvm_message)
| GetTxContext
| GetBlockHash (number : Z)
| EmitLog (a : vvm_address) (data : list byte) (topics : list vvm_uint256be).

Inductive answer :=
| Nothing
| Flag (b : bool)
| Word (w : vvm_uint256be)
| Code (size : Z) (code : buffer_ptr)
| CallResult (r : vvm_result)
| TxContext (c : vvm_tx_context).

(** The runtime faults of the code itself. *)
Inductive runtime_fault :=
| Failure
| BadInstruction
| BadJumpDestination
| StackOverflow
| StackUnderflow.

(** Modelled from the spec: the bytecode interpreter is missing (the spec
    leaves instruction semantics to the implementation).  Code under
    execution is what the interface can see of it: it ends by returning or
    reverting with output, stops on a runtime fault, uses up gas, or asks for
    a callback and goes on with the answer.  [Crash] is a point where the
    implementation itself fails.  A run is finite: gas is the one means of
    interruption, and an execution ends when its gas does. *)
Inductive program :=
| Return (output : list byte)
| Revert (output : list byte)
| Trap (f : runtime_fault)
| Crash
| UseGas (amount : N) (k : program)
| Invoke (r : request) (k : answer -> program).

(** What stops an execution short of a normal end. *)
Inductive exception :=
| OutOfGas
| StaticModeViolation
| RuntimeFault (f : runtime_fault)
| InternalFault.

Inductive outcome :=
| Returned (output : list byte)
| Reverted (output : list byte).

Definition status_of_fault (f : runtime_fault) : vvm_status_code :=
  match f with
  | Failure => VVM_FAILURE
  | BadInstruction => VVM_BAD_INSTRUCTION
  | BadJumpDestination => VVM_BAD_JUMP_DESTINATION
  | StackOverflow => VVM_STACK_OVERFLOW
  | StackUnderflow => VVM_STACK_UNDERFLOW
  end.

(** Modelled from the spec: the status under which [execute] reports each way
    of stopping ("gas exhaustion ... returning OUT_OF_GAS", "failing with
    STATIC_MODE_ERROR", "internal faults ... are reported via INTERNAL_ERROR
    status"). *)
Definition status_of_exception (e : exception) : vvm_status_code :=
  match e with
  | OutOfGas => VVM_OUT_OF_GAS
  | StaticModeViolation => VVM_STATIC_MODE_ERROR
  | RuntimeFault f => status_of_fault f
  | InternalFault => VVM_INTERNAL_ERROR
  end.

Definition zero_address : vvm_address := mk_address (replicate 20 x00).

(** Modelled from the spec: the balance transfer a message asks for.
    "DELEGATECALL ignores value"; a message of another kind moves its value,
    if there is any, from the sender to the destination. *)
Definition message_transfer (m : vvm_message)
    : option (vvm_address * vvm_address * vvm_uint256be) :=
  match kind m with
  | VVM_DELEGATECALL => None
  | _ => if uint256be_value (value m) =? 0 then None
         else Some (sender m, destination m, value m)
  end.



(** Modelled from the spec: what static mode forbids, "any attempt to write
    storage, emit logs, transfer value, self-destruct, or perform non-static
    nested calls". *)
Definition forbidden_in_static (r : request) : bool :=
  match r with
  | SetStorage _ _ _ | Selfdestruct _ _ | EmitLog _ _ _ => true
  | Call m => negb (is_static m) || bool_decide (is_Some (message_transfer m))
  | _ => false
  end.

(** Modelled from the spec: "number MUST be within the most recent 256
    blocks", which the header words as a value between (and including) 0 and
    255. *)
Definition block_number_in_range (number : Z) : bool :=
  (0 <=? number) && (number <=? 255).

(** Modelled from the spec: the machine is missing; these are the requests
    that may reach the Host during the execution of [msg], those that static
    mode does not forbid and whose block number, if any, is in range. *)
Definition permitted (msg : vvm_message) (r : request) : bool :=
  negb (is_static msg && forbidden_in_static r)
  && match r with
     | GetBlockHash n => block_number_in_range n
     | _ => true
     end.

(** Modelled from the spec: an implementation behind [struct vvm_instance],
    as far as the interface leaves it open.  It says how a revision, a message
    and a piece of code become a run ([None]: the machine declines them,
    "REJECTED"), which address it reports for a successful CREATE, and which
    function it attaches to a result that owns memory. *)
Record machine := mk_machine {
  interp : vvm_revision -> vvm_message -> list byte -> option program;
  created_address_of : vvm_message -> vvm_address;
  machine_release : N
}.

Section Machine.
Context {H : Type}.

(** The instance that executes, and the table of the context it was given. *)
Variable instance : machine.
Variable tbl : vvm_context_fn_table H.

(** Modelled from the spec: the state of the missing machine during one
    execution.  It holds the Host data behind the context pointer, the gas
    still available, and a record of the callbacks invoked so far, oldest
    first. *)
Record machine_state := mk_state {
  host : H;
  gas_now : Z;
  invoked : list request
}.

(** Modelled from the spec: computations of the missing machine.  They
    thread the state and either stop with an exception or give a value. *)
Definition eng (A : Type) : Type := machine_state -> (exception + A) * machine_state.

Definition ret {A} (a : A) : eng A := fun st => (inr a, st).

Definition raise {A} (e : exception) : eng A := fun st => (inl e, st).

Definition bind {A B} (c : eng A) (f : A -> eng B) : eng B :=
  fun st =>
    match c st with
    | (inl e, st') => (inl e, st')
    | (inr a, st') => f a st'
    end.

Notation "x <- c ;; k" := (bind c (fun x => k))
  (at level 100, c at next level, right associativity).

(** Calling through the table: each request goes to the member of the table
    that bears its name. *)
Definition dispatch (r : request) (h : H) : answer * H :=
  match r with
  | AccountExists a => let (b, h') := account_exists tbl a h in (Flag b, h')
  | GetStorage a k => let (w, h') := get_storage tbl a k h in (Word w, h')
  | SetStorage a k v => (Nothing, set_storage tbl a k v h)
  | GetBalance a => let (w, h') := get_balance tbl a h in (Word w, h')
  | GetCode want a =>
      let (sc, h') := get_code tbl want a h in (Code (fst sc) (snd sc), h')
  | Selfdestruct a b => (Nothing, selfdestruct tbl a b h)
  | Call m => let (r, h') := call tbl m h in (CallResult r, h')
  | GetTxContext => let (c, h') := get_tx_context tbl h in (TxContext c, h')
  | GetBlockHash n => let (w, h') := get_block_hash tbl n h in (Word w, h')
  | EmitLog a d ts => (Nothing, emit_log tbl a d ts h)
  end.

(** Modelled from the spec: the missing machine invokes a callback.  The
    Host data becomes what the callback made of it, and the request is added
    to the record. *)
Definition invoke (r : request) : eng answer :=
  fun st =>
    let (a, h') := dispatch r (host st) in
    (inr a, mk_state h' (gas_now st) (invoked st ++ [r])).

(** Modelled from the spec: the machine's side of a callback.  In static
    mode a forbidden request is refused before the Host sees it; a block hash
    is asked of the Host only for a number in range, and is the zero hash
    otherwise ("typically zero hash"). *)
Definition handle (msg : vvm_message) (r : request) : eng answer :=
  if is_static msg && forbidden_in_static r then raise StaticModeViolation
  else
    match r with
    | GetBlockHash n =>
        if block_number_in_range n then invoke r
        else ret (Word zero_uint256be)
    | _ => invoke r
    end.

(** Modelled from the spec: "decrementing available gas and returning
    OUT_OF_GAS when it would go negative". *)
Definition use_gas (amount : N) : eng unit :=
  fun st =>
    if gas_now st - Z.of_N amount <? 0 then (inl OutOfGas, st)
    else (inr tt, mk_state (host st) (gas_now st - Z.of_N amount) (invoked st)).

(** Modelled from the spec: the missing machine runs code.  Gas is taken
    before the code goes on, every request passes through [handle], and the
    run ends with the first exception or with the end of the code. *)
Fixpoint run (msg : vvm_message) (p : program) : eng outcome :=
  match p with
  | Return out => ret (Returned out)
  | Revert out => ret (Reverted out)
  | Trap f => raise (RuntimeFault f)
  | Crash => raise InternalFault
  | UseGas n k => _ <- use_gas n ;; run msg k
  | Invoke r k => a <- handle msg r ;; run msg (k a)
  end.

(** Modelled from the spec: a result that carries gas and output (SUCCESS
    and REVERT "both carry meaningful gas_left and optional output").  An
    empty output is an absent one; a result that owns its output has the
    release function attached. *)
Definition result_with_output (s : vvm_status_code) (g : Z)
    (out : list byte) (created : vvm_address) : vvm_result :=
  match out with
  | [] => mk_result s g None 0 None created (replicate 4 x00)
  | _ => mk_result s g (Some out) (Z.of_nat (length out))
                   (Some (machine_release instance)) created (replicate 4 x00)
  end.

(** Modelled from the spec: every other status ("gas_left forced to 0,
    output absent"). *)
Definition result_without_output (s : vvm_status_code) : vvm_result :=
  mk_result s 0 None 0 None zero_address (replicate 4 x00).

(** Modelled from the spec: the result for each way a run can end.  The
    status is SUCCESS for a return, REVERT for a revert and the status of the
    exception otherwise; the created address is filled in for a successful
    CREATE only ("created-address valid only when status is SUCCESS and kind
    was CREATE"). *)
Definition result_of (msg : vvm_message) (o : exception + outcome)
    (st : machine_state) : vvm_result :=
  match o with
  | inr (Returned out) =>
      result_with_output VVM_SUCCESS (gas_now st) out
        (match kind msg with
         | VVM_CREATE => created_address_of instance msg
         | _ => zero_address
         end)
  | inr (Reverted out) =>
      result_with_output VVM_REVERT (gas_now st) out zero_address
  | inl e => result_without_output (status_of_exception e)
  end.

(** Modelled from the spec: an execution starts with the gas of its message
    and no callback invoked. *)
Definition initial (h : H) (msg : vvm_message) : machine_state :=
  mk_state h (gas msg) [].

(** Modelled from the spec: an attempt of the code under execution.  The
    code comes to ask for [r] with the machine in state [st']: every request
    before it was answered and the gas lasted. *)
Inductive attempts (msg : vvm_message)
    : program -> machine_state -> request -> machine_state -> Prop :=
| attempts_now r k st :
    attempts msg (Invoke r k) st r st
| attempts_after_answer r k st a st1 r' st' :
    handle msg r st = (inr a, st1) ->
    attempts msg (k a) st1 r' st' ->
    attempts msg (Invoke r k) st r' st'
| attempts_after_gas n k st st1 r' st' :
    use_gas n st = (inr tt, st1) ->
    attempts msg k st1 r' st' ->
    attempts msg (UseGas n k) st r' st'.



End Machine.

(** Modelled from the spec: [execute(instance, context, revision, message,
    code, code_size)].  The run starts from the Host data of the context and
    calls through its table.  The result comes with the machine's final
    state, that is the Host data as the callbacks left it and the callbacks
    invoked. *)
Definition execute {H : Type} (instance : machine) (context : vvm_context H)
    (rev : vvm_revision) (msg : vvm_message) (code : list byte)
    : vvm_result * machine_state :=
  match interp instance rev msg code with
  | None => (result_without_output VVM_REJECTED,
             initial (host_data context) msg)
  | Some p =>
      let (o, st) := run (fn_table context) msg p
                         (initial (host_data context) msg) in
      (result_of instance msg o st, st)
  end.


(** ** A Host stub *)

(** Modelled from the spec: the Host is missing; this is the "Host stub
    tracking transfers" of the spec's testable properties.  It keeps the
    storage, the logs, the self-destructs and the balance transfers it was
    asked for, answers every query it cannot satisfy with zero or absent, and
    does not run code for a nested call. *)
Record stub_host := mk_stub {
  stub_storage : gmap (vvm_address * vvm_uint256be) vvm_uint256be;
  stub_logs : list (vvm_address * list byte * list vvm_uint256be);
  stub_destructed : list (vvm_address * vvm_address);
  stub_transfers : list (vvm_address * vvm_address * vvm_uint256be)
}.

Definition stub_empty : stub_host := mk_stub ∅ [] [] [].

(** Modelled from the spec: the callbacks of the Host stub.  Reads answer
    from what is on record ("convention: zero/absent" for what is not), writes
    add to it. *)
Definition stub_get_storage (a : vvm_address) (k : vvm_uint256be)
    (h : stub_host) : vvm_uint256be * stub_host :=
  (default zero_uint256be (stub_storage h !! (a, k)), h).

Definition stub_set_storage (a : vvm_address) (k v : vvm_uint256be)
    (h : stub_host) : stub_host :=
  mk_stub (<[(a, k) := v]> (stub_storage h)) (stub_logs h)
          (stub_destructed h) (stub_transfers h).

Definition stub_selfdestruct (a b : vvm_address) (h : stub_host) : stub_host :=
  mk_stub (stub_storage h) (stub_logs h) (stub_destructed h ++ [(a, b)])
          (stub_transfers h).

Definition stub_emit_log (a : vvm_address) (d : list byte)
    (ts : list vvm_uint256be) (h : stub_host) : stub_host :=
  mk_stub (stub_storage h) (stub_logs h ++ [(a, d, ts)]) (stub_destructed h)
          (stub_transfers h).

Definition stub_tx_context : vvm_tx_context :=
  mk_tx_context zero_uint256be zero_address zero_address 0 0 0 zero_uint256be.

(** Modelled from the spec: the nested call of the Host stub.  The transfer
    the message asks for is recorded, and the answer is a success that used no
    gas and has no output. *)
Definition stub_call (m : vvm_message) (h : stub_host)
    : vvm_result * stub_host :=
  (mk_result VVM_SUCCESS (gas m) None 0 None zero_address (replicate 4 x00),
   match message_transfer m with
   | Some t =>
       mk_stub (stub_storage h) (stub_logs h) (stub_destructed h)
               (stub_transfers h ++ [t])
   | None => h
   end).

Definition stub_table : vvm_context_fn_table stub_host :=
  mk_fn_table stub_host
    (fun _ h => (false, h))
    stub_get_storage
    stub_set_storage
    (fun _ h => (zero_uint256be, h))
    (fun _ _ h => ((0, None), h))
    stub_selfdestruct
    stub_call
    (fun h => (stub_tx_context, h))
    (fun _ h => (zero_uint256be, h))
    stub_emit_log.

(** ** The receiver of a result *)

Module Lifecycle.






(** Modelled from the spec: what a receiver does with a result, step by
    step; a sequence of actions goes through if none of them is an error. *)
Inductive action :=
| Read
| Release.

#[global] Instance action_eq_dec : EqDecision action.
Proof. solve_decision. Defined.






End Lifecycle.

(** ** Sample inputs *)

Definition one_uint256be : vvm_uint256be :=
  mk_uint256be (replicate 31 x00 ++ [x01]).

(** A message with 100000 gas at depth 0, of the given kind, flags and
    value. *)
Definition sample_message (k : vvm_call_kind) (fl : Z) (v : vvm_uint256be)
    : vvm_message :=
  mk_message zero_address zero_address v None 0 zero_uint256be 100000 0 k fl.

(** A machine that runs the same program whatever it is given. *)
Definition always (p : program) : machine :=
  mk_machine (fun _ _ _ => Some p) (fun _ => zero_address) 1.

(** The context of the Host stub with nothing on record. *)
Definition stub_context : vvm_context stub_host :=
  mk_context stub_host stub_table stub_empty.

(** Code that reads a storage entry and then writes it. *)
Definition reads_then_writes : program :=
  Invoke (GetStorage zero_address zero_uint256be)
    (fun _ => Invoke (SetStorage zero_address zero_uint256be one_uint256be)
                (fun _ => Return [])).

(** Code that asks for the hashes of blocks 299 and 7. *)
Definition asks_block_hashes : program :=
  Invoke (GetBlockHash 299)
    (fun _ => Invoke (GetBlockHash 7) (fun _ => Return [])).




(** * Properties of the header *)

(** ** Status codes *)

(** Membership in an explicit list, settled by evaluation. *)
Ltac by_evaluation :=
  lazymatch goal with
  | H : _ ∈ _ |- _ =>
      exfalso; revert H; apply (bool_decide_unpack _); vm_compute; exact I
  | |- _ => apply (bool_decide_unpack _); vm_compute; exact I
  end.

(** C10: the status codes split by sign.  The two integration codes are the
    only negative ones, REJECTED is -1 and INTERNAL_ERROR is -2; the nine
    execution-outcome codes are pairwise distinct and are exactly the codes
    with a value from 0 to 8. *)
Theorem status_codes_partition_by_sign :
  status_code_value VVM_REJECTED = -1 /\
  status_code_value VVM_INTERNAL_ERROR = -2 /\
  (forall s, status_code_value s < 0 <-> s ∈ integration_codes) /\
  (forall s, 0 <= status_code_value s <= 8 <-> s ∈ execution_outcome_codes) /\
  status_code_value <$> execution_outcome_codes = [0; 1; 2; 3; 4; 5; 6; 7; 8] /\
  (forall s t, status_code_value s = status_code_value t -> s = t).
Proof.
  split; [reflexivity|]. split; [reflexivity|].
  split; [|split; [|split]].
  - intros s. destruct s; simpl; split; intros Hs; first [lia | by_evaluation].
  - intros s. destruct s; simpl; split; intros Hs; first [lia | by_evaluation].
  - reflexivity.
  - intros s t. destruct s, t; simpl; intros E; first [reflexivity | lia].
Qed.

(** ** The callback table *)

(** C5, as stated, fails: the table has ten members, but the first parameter
    of [get_storage] is the place for its result, not the context. *)
Lemma context_is_not_always_first_parameter :
  ~ Forall (fun f => first_param_type f.2 = Some context_ptr)
      vvm_context_fn_table_members.
Proof.
  intros Hall. rewrite Forall_forall in Hall.
  specialize (Hall ("get_storage", vvm_get_storage_fn)).
  assert (Hin : ("get_storage", vvm_get_storage_fn) ∈ vvm_context_fn_table_members)
    by (apply list_elem_of_further, list_elem_of_here).
  apply Hall in Hin. discriminate Hin.
Qed.

(** C5, amended: the table has exactly ten members, and in each of them the
    context is the first parameter that passes something in.  It is the first
    parameter of [account_exists], [set_storage], [selfdestruct] and
    [emit_log], and the second one, behind the single result parameter, of
    the other six. *)
Theorem callbacks_take_context_as_first_input :
  length vvm_context_fn_table_members = 10%nat /\
  Forall (fun f => first_input_type f.2 = Some context_ptr)
    vvm_context_fn_table_members /\
  Forall (fun f =>
            context_position f.2
            = Some (length (filter (fun p => param_out p = true) (fn_params f.2)))
            /\ (length (filter (fun p => param_out p = true) (fn_params f.2)) <= 1)%nat)
    vvm_context_fn_table_members /\
  fst <$> filter (fun f => first_param_type f.2 = Some context_ptr)
            vvm_context_fn_table_members
  = ["account_exists"; "set_storage"; "selfdestruct"; "emit_log"].
Proof.
  split; [reflexivity|]. split; [|split].
  - unfold vvm_context_fn_table_members. repeat constructor.
  - unfold vvm_context_fn_table_members.
    repeat (constructor; [split; [reflexivity | vm_compute; lia]|]).
    constructor.
  - reflexivity.
Qed.

(** ** The layout of a result *)

Section LayoutFacts.
Import Layout.
Local Open Scope nat_scope.

(** The layout of a result under the 64-bit data model [lp64]: field order,
    offsets, 64 bytes in all, and the 4 reserved bytes following the 20 bytes
    of the created address at once, the two making up the last 24 bytes, which
    is the size of the optional data. *)
Theorem result_layout :
  fst <$> vvm_result_fields
  = ["status_code"; "gas_left"; "output_data"; "output_size"; "release";
     "create_address"; "padding"] /\
  field_offsets lp64 0 vvm_result_fields
  = [("status_code", 0); ("gas_left", 8); ("output_data", 16);
     ("output_size", 24); ("release", 32); ("create_address", 40);
     ("padding", 60)] /\
  sizeof lp64 vvm_result_t = 64 /\
  sizeof lp64 vvm_address_t = 20 /\
  sizeof lp64 (Larray Luint8 4) = 4 /\
  result_offset lp64 "padding"
  = result_offset lp64 "create_address" + sizeof lp64 vvm_address_t /\
  result_offset lp64 "padding" + sizeof lp64 (Larray Luint8 4)
  = sizeof lp64 vvm_result_t /\
  sizeof lp64 vvm_result_optional_data_t = 24 /\
  result_offset lp64 "create_address" + sizeof lp64 vvm_result_optional_data_t
  = sizeof lp64 vvm_result_t.
Proof. repeat split; reflexivity. Qed.

End LayoutFacts.

(** ** The optional data *)

Section OptionalData.
Import Layout Mem.
Local Open Scope nat_scope.

Lemma load_store_same (m : memory) (p n : nat) (bs : list byte) :
  n = length bs ->
  p + n <= length m ->
  load (store m p bs) p n = bs.
Proof.
  intros -> Hlen. unfold load, store.
  rewrite drop_app_length' by (rewrite length_take; lia).
  apply take_app_length.
Qed.

Lemma load_store_before (m : memory) (p q n : nat) (bs : list byte) :
  q + n <= p -> p <= length m ->
  load (store m p bs) q n = load m q n.
Proof.
  intros Hq Hp. unfold load, store.
  rewrite !take_drop_commute.
  rewrite take_app_le by (rewrite length_take; lia).
  rewrite take_take. f_equal. f_equal. lia.
Qed.

Lemma length_store (m : memory) (p : nat) (bs : list byte) :
  p + length bs <= length m -> length (store m p bs) = length m.
Proof.
  intros Hlen. unfold store.
  rewrite !length_app, length_take, length_drop. lia.
Qed.

(** Storing a shorter string over the start of a longer one. *)
Lemma store_over_prefix (m : memory) (p : nat) (bs cs : list byte) :
  p + length bs <= length m -> length cs <= length bs ->
  store (store m p bs) p cs = store m p (cs ++ drop (length cs) bs).
Proof.
  intros Hlen Hcs. unfold store.
  rewrite take_app_length' by (rewrite length_take; lia).
  rewrite drop_app_add' by (rewrite length_take; lia).
  rewrite drop_app_le by lia.
  rewrite length_app, length_drop.
  replace (p + (length cs + (length bs - length cs))) with (p + length bs) by lia.
  by rewrite <- !app_assoc.
Qed.

(** C7: a 24-byte payload written through [vvm_get_optional_data] is read
    back unchanged through [vvm_get_const_optional_data]; the created address
    and the reserved bytes then hold its first 20 and last 4 bytes, the fields
    before them are untouched, and storing a created address afterwards
    replaces the first 20 bytes and keeps the last 4. *)
Theorem optional_data_roundtrip (m : memory) (result : nat)
    (payload addr : list byte) :
  result + sizeof lp64 vvm_result_t <= length m ->
  length payload = 24 ->
  length addr = 20 ->
  let m1 := write_optional_bytes m result payload in
  let m2 := write_create_address m1 result addr in
  read_optional_bytes m1 result = payload /\
  read_create_address m1 result = take 20 payload /\
  read_padding m1 result = drop 20 payload /\
  load m1 result (result_offset lp64 "create_address")
  = load m result (result_offset lp64 "create_address") /\
  read_optional_bytes m2 result = addr ++ drop 20 payload /\
  read_create_address m2 result = addr /\
  read_padding m2 result = drop 20 payload.
Proof.
  intros Hm Hp Ha m1 m2. subst m1 m2.
  unfold read_optional_bytes, read_create_address, read_padding,
    write_create_address, write_optional_bytes,
    vvm_get_optional_data, vvm_get_const_optional_data.
  change (sizeof lp64 vvm_result_t) with 64 in Hm.
  change (result_offset lp64 "create_address") with 40.
  change (result_offset lp64 "padding") with 60.
  change (sizeof lp64 (Larray Luint8 24)) with 24.
  change (sizeof lp64 (Larray Luint8 4)) with 4.
  change (sizeof lp64 vvm_address_t) with 20.
  assert (Hread : load (store m (result + 40) payload) (result + 40) 24 = payload)
    by (apply load_store_same; lia).
  assert (Hover : store (store m (result + 40) payload) (result + 40) addr
                  = store m (result + 40) (addr ++ drop 20 payload))
    by (rewrite store_over_prefix by lia; by rewrite Ha).
  assert (Hsplit : forall (l : memory) p, load l p 24 = load l p 20 ++ load l (p + 20) 4).
  { intros l p. unfold load. rewrite <- drop_drop.
    change 24 with (20 + 4). by rewrite <- take_take_drop. }
  assert (Hfst : forall x y : list byte, length x = 24 ->
             x = y -> take 20 x = take 20 y /\ drop 20 x = drop 20 y)
    by (intros x y _ ->; done).
  assert (Hparts : forall l : memory, length l = 24 ->
             load (store m (result + 40) l) (result + 40) 20 = take 20 l /\
             load (store m (result + 40) l) (result + 40 + 20) 4 = drop 20 l).
  { intros l Hl.
    assert (Hall : load (store m (result + 40) l) (result + 40) 24 = l)
      by (apply load_store_same; lia).
    rewrite Hsplit in Hall.
    assert (Hl20 : length (load (store m (result + 40) l) (result + 40) 20) = 20).
    { unfold load. rewrite length_take, length_drop, length_store by lia. lia. }
    split.
    - rewrite <- Hall at 2. by rewrite take_app_length'.
    - rewrite <- Hall at 2. by rewrite drop_app_length'. }
  replace (result + 60) with (result + 40 + 20) by lia.
  destruct (Hparts payload Hp) as [Hca Hpad].
  destruct (Hparts (addr ++ drop 20 payload)) as [Hca2 Hpad2].
  { rewrite length_app, length_drop. lia. }
  rewrite Hover.
  repeat split.
  - exact Hread.
  - exact Hca.
  - exact Hpad.
  - apply load_store_before; lia.
  - apply load_store_same; [rewrite length_app, length_drop|]; lia.
  - rewrite Hca2. by rewrite take_app_length'.
  - rewrite Hpad2. by rewrite drop_app_length'.
Qed.

(** An instance: the payload 1..24 written into a zeroed result at address 8
    of a 100-byte memory, then the address made of twenty bytes ff. *)
Lemma optional_data_roundtrip_witness :
  let m := replicate 100 x00 in
  let payload := [x01; x02; x03; x04; x05; x06; x07; x08; x09; x0a; x0b; x0c;
                  x0d; x0e; x0f; x10; x11; x12; x13; x14; x15; x16; x17; x18] in
  read_optional_bytes (write_optional_bytes m 8 payload) 8 = payload /\
  read_optional_bytes
    (write_create_address (write_optional_bytes m 8 payload) 8 (replicate 20 xff)) 8
  = replicate 20 xff ++ [x15; x16; x17; x18].
Proof.
  intros m payload.
  pose proof (optional_data_roundtrip m 8 payload (replicate 20 xff)) as Hrt.
  simpl in Hrt.
  destruct Hrt as (H1 & _ & _ & _ & H5 & _); [vm_compute; lia | reflexivity | reflexivity |].
  split; [exact H1 | exact H5].
Defined.

End OptionalData.

(** * Properties of the machine *)

Section MachineFacts.
Context {H : Type}.
Variable tbl : vvm_context_fn_table H.

Implicit Types (st : @machine_state H) (p : program) (r : request).

(** A handled request either reaches the Host, and then it is a permitted
    one, or leaves the state as it was. *)
Lemma handle_effect msg r st x st' :
  handle tbl msg r st = (x, st') ->
  gas_now st' = gas_now st /\
  ((st' = st) \/
   (permitted msg r = true /\ invoked st' = invoked st ++ [r] /\
    host st' = (dispatch tbl r (host st)).2)).
Proof.
  unfold handle, permitted.
  destruct (is_static msg && forbidden_in_static r) eqn:Hs; simpl.
  - unfold raise. intros [= <- <-]. auto.
  - assert (Hinv : forall x st', invoke tbl r st = (x, st') ->
              gas_now st' = gas_now st /\
              invoked st' = invoked st ++ [r] /\
              host st' = (dispatch tbl r (host st)).2).
    { unfold invoke. intros y st1. destruct (dispatch tbl r (host st)) as [a h'].
      intros [= <- <-]. simpl. auto. }
    destruct r; try (intros Hh; apply Hinv in Hh as (? & ? & ?); auto).
    destruct (block_number_in_range number) eqn:Hn.
    + intros Hh; apply Hinv in Hh as (? & ? & ?); auto.
    + unfold ret. intros [= <- <-]. auto.
Qed.

Lemma use_gas_effect n st x st' :
  use_gas n st = (x, st') ->
  host st' = host st /\ invoked st' = invoked st.
Proof.
  unfold use_gas. destruct (gas_now st - Z.of_N n <? 0); intros [= <- <-]; auto.
Qed.

(** The callbacks invoked by a run are added at the end of the record, and
    all of them are permitted. *)
Lemma run_invoked msg p : forall st,
  exists l, invoked (run tbl msg p st).2 = invoked st ++ l /\
            Forall (fun r => permitted msg r = true) l.
Proof.
  induction p as [out|out|f| |n k IH|r k IH]; intros st; simpl;
    try (exists []; rewrite app_nil_r; split; [reflexivity | constructor]).
  - unfold bind. destruct (use_gas n st) as [[e|[]] st1] eqn:Hg.
    + apply use_gas_effect in Hg as [_ Hi]. simpl. rewrite Hi.
      exists []. rewrite app_nil_r. split; [reflexivity | constructor].
    + apply use_gas_effect in Hg as [_ Hi].
      destruct (IH st1) as (l & Hl & Hperm). rewrite Hi in Hl. eauto.
  - unfold bind. destruct (handle tbl msg r st) as [[e|a] st1] eqn:Hh.
    + apply handle_effect in Hh as [_ [-> | (Hperm & Hi & _)]]; simpl.
      * exists []. rewrite app_nil_r. split; [reflexivity | constructor].
      * exists [r]. split; [exact Hi | by constructor].
    + destruct (IH a st1) as (l & Hl & Hperm).
      apply handle_effect in Hh as [_ [-> | (Hr & Hi & _)]].
      * eauto.
      * exists (r :: l). rewrite Hl, Hi, <- app_assoc. split; [reflexivity|].
        by constructor.
Qed.

(** If the permitted callbacks leave the Host data alone, so does a run. *)
Lemma run_host_unchanged msg p :
  (forall r h, permitted msg r = true -> (dispatch tbl r h).2 = h) ->
  forall st, host (run tbl msg p st).2 = host st.
Proof.
  intros Hro.
  induction p as [out|out|f| |n k IH|r k IH]; intros st; simpl; try reflexivity.
  - unfold bind. destruct (use_gas n st) as [[e|[]] st1] eqn:Hg;
      apply use_gas_effect in Hg as [Hh _]; simpl; [exact Hh|].
    by rewrite IH.
  - unfold bind. destruct (handle tbl msg r st) as [[e|a] st1] eqn:Hh;
      apply handle_effect in Hh as [_ [-> | (Hperm & _ & Hhost)]]; simpl;
      rewrite ?IH; try reflexivity; rewrite Hhost; by apply Hro.
Qed.

(** In static mode, the run stops at the first forbidden request the code
    comes to, in the state the machine was in. *)
Lemma run_stops_at_forbidden msg p st r st' :
  is_static msg = true ->
  attempts tbl msg p st r st' ->
  forbidden_in_static r = true ->
  run tbl msg p st = (inl StaticModeViolation, st').
Proof.
  intros Hs Hat Hf.
  induction Hat as [r k st | r k st a st1 r' st' Hh _ IH | n k st st1 r' st' Hg _ IH];
    simpl; unfold bind.
  - unfold handle. by rewrite Hs, Hf.
  - rewrite Hh. by apply IH.
  - rewrite Hg. by apply IH.
Qed.

(** The state in which a request is attempted extends the starting state by
    permitted callbacks only. *)
Lemma attempts_invoked msg p st r st' :
  attempts tbl msg p st r st' ->
  exists l, invoked st' = invoked st ++ l /\
            Forall (fun r => permitted msg r = true) l.
Proof.
  induction 1 as [r k st | r k st a st1 r' st' Hh _ IH | n k st st1 r' st' Hg _ IH].
  - exists []. rewrite app_nil_r. split; [reflexivity | constructor].
  - destruct IH as (l & Hl & Hperm).
    apply handle_effect in Hh as [_ [-> | (Hr & Hi & _)]]; [eauto|].
    exists (r :: l). rewrite Hl, Hi, <- app_assoc. split; [reflexivity|].
    by constructor.
  - destruct IH as (l & Hl & Hperm).
    apply use_gas_effect in Hg as [_ Hi]. rewrite Hi in Hl. eauto.
Qed.





(** The machine does not look at the value of the message it executes. *)
Lemma run_ignores_value msg v p : forall st,
  run tbl (set_value v msg) p st = run tbl msg p st.
Proof.
  induction p as [out|out|f| |n k IH|r k IH]; intros st; simpl; try reflexivity.
  - unfold bind. destruct (use_gas n st) as [[e|[]] st1]; [reflexivity | apply IH].
  - unfold bind. change (handle tbl (set_value v msg) r st) with (handle tbl msg r st).
    destruct (handle tbl msg r st) as [[e|a] st1]; [reflexivity | apply IH].
Qed.

Lemma permitted_not_forbidden msg r :
  is_static msg = true -> permitted msg r = true -> forbidden_in_static r = false.
Proof.
  unfold permitted. intros ->. simpl.
  destruct (forbidden_in_static r); simpl; [discriminate | reflexivity].
Qed.

Lemma permitted_block_number msg n :
  permitted msg (GetBlockHash n) = true -> 0 <= n <= 255.
Proof.
  unfold permitted, block_number_in_range. intros Hp.
  apply andb_true_iff in Hp as [_ Hp]. apply andb_true_iff in Hp as [? ?]. lia.
Qed.

End MachineFacts.

(** ** What [execute] guarantees *)

Section Execute.
Context {H : Type}.
Variable instance : machine.
Variable context : vvm_context H.

Local Abbreviation tbl := (fn_table context).
Local Abbreviation start msg := (initial (host_data context) msg).


Lemma result_with_output_invariant s g out created :
  s = VVM_SUCCESS \/ s = VVM_REVERT ->
  result_invariant (result_with_output instance s g out created).
Proof.
  intros Hs. unfold result_invariant, result_with_output.
  destruct out as [|b out]; simpl; split; first [done | intros; destruct Hs; done].
Qed.

Lemma result_without_output_invariant s :
  result_invariant (result_without_output s).
Proof. unfold result_invariant. simpl. auto. Qed.

Lemma result_of_invariant msg o (st : @machine_state H) :
  result_invariant (result_of instance msg o st).
Proof.
  destruct o as [e|[out|out]]; simpl.
  - apply result_without_output_invariant.
  - apply result_with_output_invariant. auto.
  - apply result_with_output_invariant. auto.
Qed.

Lemma execute_unfold rev msg code p :
  interp instance rev msg code = Some p ->
  execute instance context rev msg code
  = (result_of instance msg (run tbl msg p (start msg)).1
                   (run tbl msg p (start msg)).2,
     (run tbl msg p (start msg)).2).
Proof.
  intros Hp. unfold execute. rewrite Hp.
  by destruct (run tbl msg p (start msg)).
Qed.

Lemma execute_invoked rev msg code :
  Forall (fun r => permitted msg r = true) (invoked (execute instance context rev msg code).2).
Proof.
  destruct (interp instance rev msg code) as [p|] eqn:Hp.
  - rewrite (execute_unfold _ _ _ _ Hp). simpl.
    destruct (run_invoked tbl msg p (start msg)) as (l & -> & Hl).
    exact Hl.
  - unfold execute. rewrite Hp. constructor.
Qed.

(** Every result [execute] gives keeps the invariant of results, whatever
    the Host: a status other than SUCCESS and REVERT comes with no gas left
    and no output (null pointer, size 0), and a null output pointer comes
    with size 0. *)
Theorem execute_result_invariant rev msg code :
  let r := (execute instance context rev msg code).1 in
  (status_code r <> VVM_SUCCESS -> status_code r <> VVM_REVERT ->
   gas_left r = 0 /\ output_data r = None /\ output_size r = 0) /\
  (output_data r = None -> output_size r = 0).
Proof.
  simpl. change (result_invariant (execute instance context rev msg code).1).
  destruct (interp instance rev msg code) as [p|] eqn:Hp.
  - rewrite (execute_unfold _ _ _ _ Hp). apply result_of_invariant.
  - unfold execute. rewrite Hp. apply result_without_output_invariant.
Qed.

(** C2: while a message with the STATIC flag is executed, the request for
    [set_storage], [selfdestruct], [emit_log] or a nested call that is not
    static (or moves value) ends the execution with STATIC_MODE_ERROR at the
    point where the code makes it, without reaching the Host; no such
    callback is among those invoked; and if the callbacks that remain do not
    change the Host data, the Host data after the execution is the Host data
    before it. *)
Theorem static_mode_refuses_mutation rev msg code p :
  is_static msg = true ->
  interp instance rev msg code = Some p ->
  (forall r st',
     attempts tbl msg p (start msg) r st' ->
     forbidden_in_static r = true ->
     execute instance context rev msg code = (result_without_output VVM_STATIC_MODE_ERROR, st') /\
     Forall (fun r' => forbidden_in_static r' = false) (invoked st')) /\
  Forall (fun r => forbidden_in_static r = false)
    (invoked (execute instance context rev msg code).2) /\
  ((forall r h0, forbidden_in_static r = false -> (dispatch tbl r h0).2 = h0) ->
   host (execute instance context rev msg code).2 = host_data context).
Proof.
  intros Hs Hp. split; [|split].
  - intros r st' Hat Hf.
    rewrite (execute_unfold _ _ _ _ Hp).
    rewrite (run_stops_at_forbidden tbl msg p _ r st' Hs Hat Hf). simpl.
    split; [reflexivity|].
    destruct (attempts_invoked tbl msg p _ r st' Hat) as (l & -> & Hl).
    simpl. eapply Forall_impl; [exact Hl|].
    intros r'. by apply permitted_not_forbidden.
  - eapply Forall_impl; [apply execute_invoked|].
    intros r. by apply permitted_not_forbidden.
  - intros Hro. rewrite (execute_unfold _ _ _ _ Hp). simpl.
    rewrite run_host_unchanged; [reflexivity|].
    intros r h0 Hperm. apply Hro. by apply (permitted_not_forbidden msg).
Qed.


(** C8: every [get_block_hash] callback that an execution invokes is given a
    block number from 0 to 255. *)
Theorem block_hash_numbers_in_range rev msg code :
  Forall (fun r => forall n, r = GetBlockHash n -> 0 <= n <= 255)
    (invoked (execute instance context rev msg code).2).
Proof.
  eapply Forall_impl; [apply execute_invoked|].
  intros r Hperm n ->. by apply (permitted_block_number msg).
Qed.

End Execute.

(** ** Results in a tree of calls *)

Section Nested.
Context {H : Type}.
Variable instance : machine.
Variable rev : vvm_revision.
Variable base : vvm_context_fn_table H.



End Nested.

(** ** The Host stub *)


(** The callbacks static mode leaves open do not change the stub. *)
Lemma stub_read_only r (h0 : stub_host) :
  forbidden_in_static r = false -> (dispatch stub_table r h0).2 = h0.
Proof.
  destruct r; simpl; try discriminate; try reflexivity.
  intros Hf. apply orb_false_iff in Hf as [_ Hf].
  apply bool_decide_eq_false in Hf.
  destruct (message_transfer m) as [t|]; [|reflexivity].
  exfalso. apply Hf. by eexists.
Qed.





(** The results of the stub's nested call keep the invariant of results. *)
Lemma stub_call_result_invariant m (h : stub_host) :
  result_invariant (stub_call m h).1.
Proof. unfold result_invariant. simpl. split; [congruence | reflexivity]. Qed.


(** For a CALL message the value does count: the stub records the transfer. *)
Example call_value_is_transferred :
  stub_transfers
    (stub_call (sample_message VVM_CALL 0 one_uint256be) stub_empty).2
  = [(zero_address, zero_address, one_uint256be)].
Proof. reflexivity. Qed.

(** ** Executions against the stub *)

Section Samples.

Local Abbreviation run_sample p msg :=
  (execute (always p) stub_context VVM_BYZANTIUM msg []).

(** A run that stops on a runtime fault: FAILURE, no gas left, no output. *)
Lemma execute_result_invariant_witness :
  let r := (run_sample (Trap Failure) (sample_message VVM_CALL 0 zero_uint256be)).1 in
  status_code r = VVM_FAILURE /\
  gas_left r = 0 /\ output_data r = None /\ output_size r = 0.
Proof.
  intros r.
  destruct (execute_result_invariant (always (Trap Failure)) stub_context
              VVM_BYZANTIUM (sample_message VVM_CALL 0 zero_uint256be) [])
    as [Hfail _].
  split; [reflexivity|]. apply Hfail; discriminate.
Defined.

(** In static mode the storage read goes through and the write is refused:
    the execution ends with STATIC_MODE_ERROR, the Host has seen the read
    only, and its data is what it was. *)
Lemma static_mode_refuses_mutation_witness :
  let msg := sample_message VVM_CALL VVM_STATIC zero_uint256be in
  is_static msg = true /\
  run_sample reads_then_writes msg
  = (result_without_output VVM_STATIC_MODE_ERROR,
     mk_state stub_empty 100000 [GetStorage zero_address zero_uint256be]) /\
  Forall (fun r => forbidden_in_static r = false)
    (invoked (run_sample reads_then_writes msg).2) /\
  host (run_sample reads_then_writes msg).2 = stub_empty.
Proof.
  intros msg.
  destruct (static_mode_refuses_mutation (always reads_then_writes)
              stub_context VVM_BYZANTIUM msg [] reads_then_writes
              eq_refl eq_refl)
    as (Hstop & Hnone & Hhost).
  split; [reflexivity|]. split; [|split].
  - apply (Hstop (SetStorage zero_address zero_uint256be one_uint256be)).
    + eapply attempts_after_answer; [reflexivity | apply attempts_now].
    + reflexivity.
  - exact Hnone.
  - apply Hhost. intros r h0. apply stub_read_only.
Defined.


(** Of the two block hashes the code asks for, the Host is asked for the one
    of block 7 only. *)
Lemma block_hash_numbers_in_range_witness :
  invoked (run_sample asks_block_hashes
             (sample_message VVM_CALL 0 zero_uint256be)).2
  = [GetBlockHash 7] /\
  Forall (fun r => forall n, r = GetBlockHash n -> 0 <= n <= 255)
    (invoked (run_sample asks_block_hashes
                (sample_message VVM_CALL 0 zero_uint256be)).2).
Proof.
  split; [reflexivity|].
  apply (block_hash_numbers_in_range (always asks_block_hashes) stub_context
           VVM_BYZANTIUM (sample_message VVM_CALL 0 zero_uint256be) []).
Defined.

(** The same code in a call that is not static: the write reaches the Host
    and the execution succeeds with its gas untouched. *)
Example write_outside_static_mode :
  let out := run_sample reads_then_writes
               (sample_message VVM_CALL 0 zero_uint256be) in
  status_code out.1 = VVM_SUCCESS /\
  gas_left out.1 = 100000 /\
  invoked out.2
  = [GetStorage zero_address zero_uint256be;
     SetStorage zero_address zero_uint256be one_uint256be] /\
  stub_storage (host out.2) !! (zero_address, zero_uint256be)
  = Some one_uint256be.
Proof. repeat split; reflexivity. Qed.

End Samples.



(** ** The life of a result *)

Section LifecycleFacts.
Import Lifecycle.







End LifecycleFacts.

(** * Further properties of the header *)

(** ** The memory around the optional data *)

Section OptionalDataFrame.
Import Layout Mem.
Local Open Scope nat_scope.

(** A store changes the bytes it covers and no other. *)
Lemma lookup_store (m : memory) (p : nat) (bs : list byte) (i : nat) :
  p + length bs <= length m ->
  store m p bs !! i
  = if decide (p <= i < p + length bs) then bs !! (i - p) else m !! i.
Proof.
  intros Hlen. unfold store, memory in *.
  assert (Htake : length (take p m) = p) by (rewrite length_take; lia).
  destruct (decide (i < p)) as [Hlt|Hge].
  - rewrite lookup_app_l by lia. rewrite lookup_take_lt by lia.
    case_decide; [lia | reflexivity].
  - rewrite lookup_app_r by lia. rewrite Htake.
    destruct (decide (i < p + length bs)) as [Hin|Hout].
    + rewrite lookup_app_l by lia. case_decide; [reflexivity | lia].
    + rewrite lookup_app_r by lia. rewrite lookup_drop.
      case_decide; [lia|]. f_equal. lia.
Qed.

Lemma lookup_load (m : memory) (p n i : nat) :
  load m p n !! i = if decide (i < n) then m !! (p + i) else None.
Proof. unfold load, memory in *. rewrite lookup_take, lookup_drop. reflexivity. Qed.

(** Two memories with the same bytes in a range load the same from it. *)
Lemma load_ext (m1 m2 : memory) (p n : nat) :
  (forall i, p <= i < p + n -> m1 !! i = m2 !! i) ->
  load m1 p n = load m2 p n.
Proof.
  intros Hsame. apply list_eq. intros i. rewrite !lookup_load.
  case_decide; [apply Hsame; lia | reflexivity].
Qed.

Ltac layout_constants :=
  change (sizeof lp64 vvm_result_t) with 64 in *;
  change (sizeof lp64 vvm_result_optional_data_t) with 24 in *;
  change (alignof lp64 vvm_result_t) with 8 in *;
  change (alignof lp64 vvm_result_optional_data_t) with 8 in *;
  change (sizeof lp64 (Larray Luint8 24)) with 24 in *;
  change (sizeof lp64 (Larray Luint8 4)) with 4 in *;
  change (sizeof lp64 vvm_address_t) with 20 in *;
  change (sizeof lp64 Lpointer) with 8 in *;
  change (result_offset lp64 "create_address") with 40 in *;
  change (result_offset lp64 "padding") with 60 in *.

Ltac unfold_accessors :=
  unfold read_optional_bytes, read_optional_pointer, read_create_address,
    read_padding, write_optional_bytes, write_optional_pointer,
    write_create_address, write_padding,
    vvm_get_optional_data, vvm_get_const_optional_data in *;
  layout_constants; unfold memory in *.

(** Writing the optional data keeps the size of the memory and changes no
    byte outside the 24 bytes the accessor points to. *)
Theorem optional_data_write_frame (m : memory) (result : nat)
    (payload : list byte) (i : nat) :
  result + sizeof lp64 vvm_result_t <= length m ->
  length payload = sizeof lp64 vvm_result_optional_data_t ->
  length (write_optional_bytes m result payload) = length m /\
  (~ (vvm_get_optional_data result <= i
      < vvm_get_optional_data result + sizeof lp64 vvm_result_optional_data_t) ->
   write_optional_bytes m result payload !! i = m !! i).
Proof.
  intros Hm Hp. unfold_accessors. split.
  - apply length_store. lia.
  - intros Hout. rewrite lookup_store by lia. case_decide; [lia | reflexivity].
Qed.

Lemma optional_data_write_frame_witness :
  let m := replicate 100 xaa in
  let m' := write_optional_bytes m 8 (replicate 24 x01) in
  length m' = 100 /\ m' !! 47 = Some xaa /\ m' !! 72 = Some xaa.
Proof.
  intros m m'. subst m'.
  destruct (optional_data_write_frame m 8 (replicate 24 x01) 47) as [Hlen H47];
    [vm_compute; lia | reflexivity |].
  destruct (optional_data_write_frame m 8 (replicate 24 x01) 72) as [_ H72];
    [vm_compute; lia | reflexivity |].
  split; [exact Hlen|]. split.
  - rewrite H47; [reflexivity | vm_compute; lia].
  - rewrite H72; [reflexivity | vm_compute; lia].
Defined.

(** A store that stays clear of the optional data, into another field of the
    result or into anything else in memory, does not change what is read
    from the optional data. *)
Theorem optional_data_read_frame (m : memory) (result q : nat)
    (bs : list byte) :
  q + length bs <= length m ->
  q + length bs <= vvm_get_const_optional_data result \/
  vvm_get_const_optional_data result + sizeof lp64 vvm_result_optional_data_t <= q ->
  read_optional_bytes (store m q bs) result = read_optional_bytes m result.
Proof.
  intros Hq Hclear. unfold_accessors.
  apply load_ext. intros i Hi.
  rewrite lookup_store by lia. case_decide; [lia | reflexivity].
Qed.

(** Storing eight bytes at the start of the result, where the status code
    and the padding behind it are. *)
Lemma optional_data_read_frame_witness :
  let m := write_optional_bytes (replicate 100 x00) 8 (replicate 24 x07) in
  read_optional_bytes (store m 8 (replicate 8 xff)) 8 = replicate 24 x07.
Proof.
  intros m.
  rewrite (optional_data_read_frame m 8 8 (replicate 8 xff));
    [reflexivity | vm_compute; lia | left; vm_compute; lia].
Defined.

(** The pointer the accessor gives is aligned for the union whenever the
    result is aligned for its own type, and the union it points to ends where
    the result ends. *)
Theorem optional_data_pointer_aligned (result : nat) :
  result mod alignof lp64 vvm_result_t = 0 ->
  vvm_get_optional_data result mod alignof lp64 vvm_result_optional_data_t = 0 /\
  vvm_get_optional_data result + sizeof lp64 vvm_result_optional_data_t
  = result + sizeof lp64 vvm_result_t.
Proof.
  intros Hal. unfold_accessors. split; [|lia].
  rewrite <- Nat.Div0.add_mod_idemp_l, Hal. reflexivity.
Qed.

Lemma optional_data_pointer_aligned_witness :
  vvm_get_optional_data 128 mod 8 = 0.
Proof.
  destruct (optional_data_pointer_aligned 128) as [Hal _]; [reflexivity|].
  exact Hal.
Defined.

(** ** The two views of the optional data *)

(** Loading over a shorter store gives the stored bytes and then what was
    there before. *)
Lemma load_store_overlay (m : list byte) (p n : nat) (bs : list byte) :
  p + n <= length m -> length bs <= n ->
  load (store m p bs) p n = bs ++ drop (length bs) (load m p n).
Proof.
  intros Hn Hbs. apply list_eq. intros i.
  rewrite lookup_load, lookup_store by lia.
  destruct (decide (i < length bs)) as [Hi|Hi].
  - rewrite lookup_app_l by lia.
    repeat case_decide; try lia. f_equal. lia.
  - rewrite lookup_app_r by lia. rewrite lookup_drop, lookup_load.
    repeat case_decide; try lia; [f_equal; lia | reflexivity].
Qed.

(** Loading from inside a longer store gives the start of the stored
    bytes. *)
Lemma load_store_covered (m : list byte) (p n : nat) (bs : list byte) :
  p + length bs <= length m -> n <= length bs ->
  load (store m p bs) p n = take n bs.
Proof.
  intros Hbs Hn. apply list_eq. intros i.
  rewrite lookup_load, lookup_store, lookup_take by lia.
  repeat case_decide; try lia; [f_equal; lia | reflexivity].
Qed.

Lemma load_store_after (m : list byte) (p q n : nat) (bs : list byte) :
  p + length bs <= length m -> p + length bs <= q ->
  load (store m p bs) q n = load m q n.
Proof.
  intros Hbs Hq. apply load_ext. intros i Hi.
  rewrite lookup_store by lia. case_decide; [lia | reflexivity].
Qed.

(** The created address and the reserved bytes, written one after the other
    in either order, are the 24 bytes written at once through the accessor:
    the two fields and the [bytes] member are the same memory. *)
Theorem fields_make_up_optional_data (m : memory) (result : nat)
    (addr pad : list byte) :
  result + sizeof lp64 vvm_result_t <= length m ->
  length addr = sizeof lp64 vvm_address_t ->
  length pad = sizeof lp64 (Larray Luint8 4) ->
  write_padding (write_create_address m result addr) result pad
  = write_optional_bytes m result (addr ++ pad) /\
  write_create_address (write_padding m result pad) result addr
  = write_optional_bytes m result (addr ++ pad) /\
  read_optional_bytes (write_optional_bytes m result (addr ++ pad)) result
  = addr ++ pad.
Proof.
  intros Hm Ha Hp. unfold_accessors.
  assert (Hbytes : forall i,
            store m (result + 40) (addr ++ pad) !! i
            = if decide (result + 40 <= i < result + 60)
              then addr !! (i - (result + 40))
              else if decide (result + 60 <= i < result + 64)
                   then pad !! (i - (result + 60))
                   else m !! i).
  { intros i. rewrite lookup_store by (rewrite length_app; lia).
    rewrite length_app.
    repeat case_decide; try lia; try reflexivity.
    - rewrite lookup_app_l by lia. reflexivity.
    - rewrite lookup_app_r by lia. f_equal. lia. }
  split; [|split].
  - apply list_eq. intros i. rewrite Hbytes.
    rewrite lookup_store by (rewrite length_store; lia).
    rewrite lookup_store by lia.
    repeat case_decide; try lia; reflexivity.
  - apply list_eq. intros i. rewrite Hbytes.
    rewrite lookup_store by (rewrite length_store; lia).
    rewrite lookup_store by lia.
    repeat case_decide; try lia; reflexivity.
  - apply load_store_same; rewrite ?length_app; lia.
Qed.

Lemma fields_make_up_optional_data_witness :
  let m := replicate 72 x00 in
  write_padding (write_create_address m 8 (replicate 20 x11)) 8 (replicate 4 x22)
  = write_optional_bytes m 8 (replicate 20 x11 ++ replicate 4 x22).
Proof.
  intros m.
  destruct (fields_make_up_optional_data m 8 (replicate 20 x11) (replicate 4 x22))
    as (Hone & _); [vm_compute; lia | reflexivity | reflexivity |].
  exact Hone.
Defined.

(** Of two payloads written one after the other, only the second is left. *)
Theorem optional_data_last_write_wins (m : memory) (result : nat)
    (first second : list byte) :
  result + sizeof lp64 vvm_result_t <= length m ->
  length first = sizeof lp64 vvm_result_optional_data_t ->
  length second = sizeof lp64 vvm_result_optional_data_t ->
  write_optional_bytes (write_optional_bytes m result first) result second
  = write_optional_bytes m result second.
Proof.
  intros Hm H1 H2. unfold_accessors.
  apply list_eq. intros i.
  rewrite lookup_store by (rewrite length_store; lia).
  rewrite !lookup_store by lia.
  repeat case_decide; try lia; reflexivity.
Qed.

Lemma optional_data_last_write_wins_witness :
  let m := replicate 64 x00 in
  read_optional_bytes
    (write_optional_bytes (write_optional_bytes m 0 (replicate 24 x01)) 0
       (replicate 24 x02)) 0
  = replicate 24 x02.
Proof.
  intros m.
  rewrite (optional_data_last_write_wins m 0 (replicate 24 x01) (replicate 24 x02));
    [reflexivity | vm_compute; lia | reflexivity | reflexivity].
Defined.

(** The [pointer] member of the union lies over the first bytes of the
    created address.  A pointer stored through it is read back, the rest of
    the optional data stays, and the created address now begins with the
    bytes of the pointer; storing a created address in turn replaces the
    pointer by the first bytes of the address.  The reserved bytes are out of
    the pointer's reach. *)
Theorem pointer_member_overlaps_create_address (m : memory) (result : nat)
    (ptr addr : list byte) :
  result + sizeof lp64 vvm_result_t <= length m ->
  length ptr = sizeof lp64 Lpointer ->
  length addr = sizeof lp64 vvm_address_t ->
  let m1 := write_optional_pointer m result ptr in
  read_optional_pointer m1 result = ptr /\
  read_optional_bytes m1 result
  = ptr ++ drop (length ptr) (read_optional_bytes m result) /\
  read_create_address m1 result
  = ptr ++ drop (length ptr) (read_create_address m result) /\
  read_padding m1 result = read_padding m result /\
  read_optional_pointer (write_create_address m1 result addr) result
  = take (length ptr) addr.
Proof.
  intros Hm Hp Ha m1. subst m1. unfold_accessors.
  split; [|split; [|split; [|split]]].
  - apply load_store_same; lia.
  - apply load_store_overlay; lia.
  - apply load_store_overlay; lia.
  - apply load_store_after; lia.
  - rewrite Hp. apply load_store_covered; rewrite ?length_store; lia.
Qed.

Lemma pointer_member_overlaps_create_address_witness :
  let m := write_create_address (replicate 64 x00) 0 (replicate 20 xaa) in
  let ptr := [x10; x20; x30; x40; x50; x60; x70; x80] in
  read_create_address (write_optional_pointer m 0 ptr) 0
  = ptr ++ replicate 12 xaa /\
  read_optional_pointer
    (write_create_address (write_optional_pointer m 0 ptr) 0 (replicate 20 xbb)) 0
  = replicate 8 xbb.
Proof.
  intros m ptr.
  destruct (pointer_member_overlaps_create_address m 0 ptr (replicate 20 xbb))
    as (_ & _ & Hca & _ & Hptr); [vm_compute; lia | reflexivity | reflexivity |].
  split; [rewrite Hca | rewrite Hptr]; reflexivity.
Defined.

End OptionalDataFrame.

(** ** Big-endian values *)

Section BigEndian.
Local Open Scope Z_scope.

Lemma byte_value_range (b : byte) : 0 <= Z.of_N (Byte.to_N b) < 256.
Proof. pose proof (Byte.to_N_bounded b). lia. Qed.

Lemma byte_of_Z_value (z : Z) : Z.of_N (Byte.to_N (byte_of_Z z)) = z mod 256.
Proof.
  unfold byte_of_Z.
  pose proof (Z.mod_pos_bound z 256 ltac:(lia)) as Hmod.
  destruct (Byte.of_N (Z.to_N (z mod 256))) as [b|] eqn:E; simpl.
  - apply Byte.to_of_N in E. rewrite E. lia.
  - apply Byte.of_N_None_iff in E. lia.
Qed.

Lemma byte_of_Z_of_value (b : byte) : byte_of_Z (Z.of_N (Byte.to_N b)) = b.
Proof.
  unfold byte_of_Z. rewrite Z.mod_small by apply byte_value_range.
  by rewrite N2Z.id, Byte.of_to_N.
Qed.

Lemma be_to_Z_snoc (bs : list byte) (b : byte) :
  be_to_Z (bs ++ [b]) = be_to_Z bs * 256 + Z.of_N (Byte.to_N b).
Proof. unfold be_to_Z. by rewrite fold_left_app. Qed.

Lemma be_to_Z_range (bs : list byte) :
  0 <= be_to_Z bs < 256 ^ Z.of_nat (length bs).
Proof.
  induction bs as [|b bs IH] using rev_ind.
  - simpl. unfold be_to_Z. simpl. lia.
  - rewrite be_to_Z_snoc, length_app. simpl length.
    replace (Z.of_nat (length bs + 1)) with (Z.succ (Z.of_nat (length bs))) by lia.
    rewrite Z.pow_succ_r by lia.
    pose proof (byte_value_range b). lia.
Qed.

Lemma be_to_Z_app (bs cs : list byte) :
  be_to_Z (bs ++ cs)
  = be_to_Z bs * 256 ^ Z.of_nat (length cs) + be_to_Z cs.
Proof.
  induction cs as [|c cs IH] using rev_ind.
  - rewrite app_nil_r. simpl. unfold be_to_Z at 3. simpl. lia.
  - rewrite app_assoc, !be_to_Z_snoc, IH, length_app. simpl length.
    replace (Z.of_nat (length cs + 1)) with (Z.succ (Z.of_nat (length cs))) by lia.
    rewrite Z.pow_succ_r by lia. lia.
Qed.

(** Byte 0 is the most significant: the first byte counts 256 to the power
    of the number of bytes behind it.  The value of [n] bytes is below 256 to
    the [n], so that of the 32 bytes of a word is below 2 to the 256. *)
Theorem big_endian_first_byte_most_significant (b : byte) (bs : list byte) :
  be_to_Z (b :: bs)
  = Z.of_N (Byte.to_N b) * 256 ^ Z.of_nat (length bs) + be_to_Z bs /\
  0 <= be_to_Z bs < 256 ^ Z.of_nat (length bs) /\
  (forall w, length (uint256be_bytes w) = 32%nat ->
             0 <= uint256be_value w < 2 ^ 256).
Proof.
  split; [|split].
  - change (b :: bs) with ([b] ++ bs). rewrite be_to_Z_app.
    unfold be_to_Z at 1. simpl. lia.
  - apply be_to_Z_range.
  - intros w Hw. unfold uint256be_value.
    pose proof (be_to_Z_range (uint256be_bytes w)) as Hr. rewrite Hw in Hr.
    change (256 ^ Z.of_nat 32) with (2 ^ 256) in Hr. exact Hr.
Qed.

Lemma be_to_Z_inj (bs cs : list byte) :
  length bs = length cs ->
  be_to_Z bs = be_to_Z cs ->
  bs = cs.
Proof.
  revert cs. induction bs as [|b bs IH] using rev_ind; intros cs Hlen Hval.
  - destruct cs; [reflexivity | discriminate].
  - destruct cs as [|c cs _] using rev_ind.
    + rewrite length_app in Hlen. simpl in Hlen. lia.
    + rewrite !length_app in Hlen. simpl in Hlen.
      rewrite !be_to_Z_snoc in Hval.
      pose proof (byte_value_range b). pose proof (byte_value_range c).
      assert (Hb : Z.of_N (Byte.to_N b) = Z.of_N (Byte.to_N c)) by lia.
      assert (Hrest : be_to_Z bs = be_to_Z cs) by lia.
      rewrite (IH cs) by (lia || exact Hrest).
      f_equal. f_equal.
      assert (Hn : Byte.to_N b = Byte.to_N c) by lia.
      pose proof (Byte.of_to_N b) as Eb. rewrite Hn, Byte.of_to_N in Eb.
      congruence.
Qed.

Lemma big_endian_first_byte_most_significant_witness :
  be_to_Z [x01; x00] = 256 /\ 0 <= uint256be_value one_uint256be < 2 ^ 256.
Proof.
  destruct (big_endian_first_byte_most_significant x01 [x00])
    as (Hcons & _ & Hword).
  split; [rewrite Hcons; reflexivity | apply Hword; reflexivity].
Defined.

(** Two words are equal exactly when the integers they stand for are equal;
    in particular the zero word is the only word with value 0. *)
Theorem words_equal_iff_values_equal (w1 w2 : vvm_uint256be) :
  length (uint256be_bytes w1) = 32%nat ->
  length (uint256be_bytes w2) = 32%nat ->
  (uint256be_value w1 = uint256be_value w2 <-> w1 = w2) /\
  (uint256be_value w1 = 0 <-> w1 = zero_uint256be).
Proof.
  intros H1 H2.
  assert (Hinj : forall u v : vvm_uint256be,
            length (uint256be_bytes u) = 32%nat ->
            length (uint256be_bytes v) = 32%nat ->
            uint256be_value u = uint256be_value v -> u = v).
  { intros [bs] [cs] Hu Hv Huv. simpl in *. f_equal.
    apply be_to_Z_inj; [congruence | exact Huv]. }
  split; split.
  - by apply Hinj.
  - by intros ->.
  - intros Hz. by apply Hinj.
  - by intros ->.
Qed.

Lemma words_equal_iff_values_equal_witness :
  uint256be_value one_uint256be = uint256be_value (mk_uint256be (be_of_Z 32 1))
  /\ one_uint256be = mk_uint256be (be_of_Z 32 1).
Proof.
  destruct (words_equal_iff_values_equal one_uint256be
              (mk_uint256be (be_of_Z 32 1)) eq_refl eq_refl) as [[Heq _] _].
  split; [reflexivity | apply Heq; reflexivity].
Defined.

Lemma length_be_of_Z (n : nat) (z : Z) : length (be_of_Z n z) = n.
Proof.
  revert z. induction n as [|n IH]; intros z; simpl; [reflexivity|].
  rewrite length_app, IH. simpl. lia.
Qed.

(** Encoding and decoding are inverse to each other: the bytes of the value
    of a byte string are that string, and the value of the [n] bytes of an
    integer is the integer modulo 256 to the [n], which is the integer itself
    if it fits. *)
Theorem big_endian_round_trip (bs : list byte) (n : nat) (z : Z) :
  be_of_Z (length bs) (be_to_Z bs) = bs /\
  be_to_Z (be_of_Z n z) = z mod 256 ^ Z.of_nat n /\
  (0 <= z < 256 ^ Z.of_nat n -> be_to_Z (be_of_Z n z) = z).
Proof.
  assert (Hdec : forall n z, be_to_Z (be_of_Z n z) = z mod 256 ^ Z.of_nat n).
  { clear. intros n. induction n as [|n IH]; intros z.
    - simpl. unfold be_to_Z. simpl. by rewrite Z.mod_1_r.
    - simpl be_of_Z. rewrite be_to_Z_snoc, IH, byte_of_Z_value.
      replace (Z.of_nat (S n)) with (Z.succ (Z.of_nat n)) by lia.
      rewrite Z.pow_succ_r by lia.
      assert (Hpow : 0 < 256 ^ Z.of_nat n) by (apply Z.pow_pos_nonneg; lia).
      rewrite Z.rem_mul_r by lia. lia. }
  split; [|split].
  - induction bs as [|b bs IH] using rev_ind; [reflexivity|].
    rewrite length_app, Nat.add_1_r. simpl be_of_Z.
    rewrite be_to_Z_snoc.
    pose proof (byte_value_range b).
    replace ((be_to_Z bs * 256 + Z.of_N (Byte.to_N b)) / 256) with (be_to_Z bs)
      by (apply Z.div_unique with (r := Z.of_N (Byte.to_N b)); lia).
    rewrite IH. f_equal. f_equal.
    rewrite <- (byte_of_Z_of_value b) at 2. unfold byte_of_Z.
    rewrite Z.add_comm, Z.mod_add by lia. reflexivity.
  - apply Hdec.
  - intros Hz. rewrite Hdec. by apply Z.mod_small.
Qed.

Lemma big_endian_round_trip_witness :
  be_to_Z (be_of_Z 32 1000000) = 1000000 /\
  be_of_Z 32 (uint256be_value one_uint256be) = uint256be_bytes one_uint256be.
Proof.
  destruct (big_endian_round_trip (uint256be_bytes one_uint256be) 32 1000000)
    as (Hbytes & _ & Hfit).
  split.
  - apply Hfit. split; [lia | reflexivity].
  - exact Hbytes.
Defined.

End BigEndian.

(** ** Layouts *)

Section LayoutMore.
Import Layout Mem.
Local Open Scope nat_scope.

Lemma align_up_1 (x : nat) : align_up x 1 = x.
Proof. unfold align_up. rewrite Nat.add_sub, Nat.div_1_r. lia. Qed.

Lemma align_up_ge (x a : nat) : 0 < a -> x <= align_up x a.
Proof.
  intros Ha. unfold align_up.
  pose proof (Nat.div_mod_eq (x + a - 1) a) as Hdm.
  pose proof (Nat.mod_upper_bound (x + a - 1) a ltac:(lia)) as Hub.
  lia.
Qed.

(** The offsets of the last two fields of a result in any data model. *)
Lemma result_tail_offsets (dm : data_model) :
  exists o, result_offset dm "create_address" = o /\
            result_offset dm "padding" = o + 20 /\
            o + 24 <= sizeof dm vvm_result_t.
Proof.
  destruct dm as [p s e a].
  assert (Hoff : field_offsets (mk_data_model p s e a) 0 vvm_result_fields
            = let o1 := align_up (align_up 0 e + e) a in
              let o2 := align_up (o1 + 8) p in
              let o3 := align_up (o2 + p) s in
              let o4 := align_up (o3 + s) p in
              [("status_code", align_up 0 e); ("gas_left", o1);
               ("output_data", o2); ("output_size", o3); ("release", o4);
               ("create_address", o4 + p); ("padding", o4 + p + 20)]).
  { cbn -[align_up]. by rewrite !align_up_1. }
  set (o4 := align_up
               (align_up (align_up (align_up (align_up 0 e + e) a + 8) p + p) s
                + s) p) in *.
  exists (o4 + p).
  split; [unfold result_offset, offsetof; rewrite Hoff; reflexivity|].
  split; [unfold result_offset, offsetof; rewrite Hoff; reflexivity|].
  cbn -[align_up Nat.max]. rewrite !align_up_1. fold o4.
  etransitivity; [|apply align_up_ge; lia]. lia.
Qed.

(** Whatever the sizes of pointers, of [size_t] and of enumerations, the
    reserved bytes start where the created address ends, and the 24 bytes the
    two make up lie inside the result. *)
Theorem optional_bytes_contiguous_in_every_data_model (dm : data_model) :
  result_offset dm "padding"
  = result_offset dm "create_address" + sizeof dm vvm_address_t /\
  sizeof dm vvm_address_t + sizeof dm (Larray Luint8 4)
  = sizeof dm (Larray Luint8 24) /\
  result_offset dm "create_address" + sizeof dm (Larray Luint8 24)
  <= sizeof dm vvm_result_t.
Proof.
  destruct (result_tail_offsets dm) as (o & Hca & Hpad & Hin).
  rewrite Hca, Hpad.
  split; [reflexivity|]. split; [reflexivity|]. exact Hin.
Qed.

(** C6, as stated, fails: on 32-bit x86 a result is 48 bytes, not 64. *)
Lemma result_is_48_bytes_on_i386 :
  sizeof i386 vvm_result_t = 48 /\ sizeof i386 vvm_result_t <> 64.
Proof. split; [reflexivity | discriminate]. Qed.

(** C6, amended: the fields of a result come in the order status, gas left,
    output pointer, output size, release function, created address, reserved
    bytes.  On a target with 8-byte pointers and [size_t] the record is
    exactly 64 bytes, with the created address at offset 40 and the reserved
    bytes at offset 60, up to its end; this is also the size of the optional
    data, 24 bytes.  On every target the 4 reserved bytes follow the 20 bytes
    of the created address at once, and the 24 bytes lie inside the
    record. *)
Theorem result_layout_with_eight_byte_pointers (dm : data_model) :
  pointer_size dm = 8 ->
  size_t_size dm = 8 ->
  1 <= enum_size dm <= 8 ->
  int64_align dm = 1 \/ int64_align dm = 2 \/ int64_align dm = 4 \/
  int64_align dm = 8 ->
  fst <$> vvm_result_fields
  = ["status_code"; "gas_left"; "output_data"; "output_size"; "release";
     "create_address"; "padding"] /\
  sizeof dm vvm_result_t = 64 /\
  result_offset dm "output_data" = 16 /\
  result_offset dm "output_size" = 24 /\
  result_offset dm "release" = 32 /\
  result_offset dm "create_address" = 40 /\
  result_offset dm "padding" = 60 /\
  result_offset dm "padding" + sizeof dm (Larray Luint8 4)
  = sizeof dm vvm_result_t /\
  sizeof dm vvm_result_optional_data_t = 24 /\
  (forall dm' : data_model,
     result_offset dm' "padding"
     = result_offset dm' "create_address" + sizeof dm' vvm_address_t /\
     result_offset dm' "create_address" + 24 <= sizeof dm' vvm_result_t).
Proof.
  destruct dm as [p s e a]. simpl. intros -> -> He Ha.
  assert (Hcases : e = 1 \/ e = 2 \/ e = 3 \/ e = 4 \/ e = 5 \/ e = 6 \/
                   e = 7 \/ e = 8) by lia.
  split; [reflexivity|].
  assert (Htail : forall dm' : data_model,
            result_offset dm' "padding"
            = result_offset dm' "create_address" + sizeof dm' vvm_address_t /\
            result_offset dm' "create_address" + 24 <= sizeof dm' vvm_result_t).
  { intros dm'. destruct (result_tail_offsets dm') as (o & -> & -> & Hin).
    split; [reflexivity | exact Hin]. }
  destruct Ha as [->|[->|[->| ->]]];
    destruct Hcases as [->|[->|[->|[->|[->|[->|[->| ->]]]]]]];
    (repeat (split; [reflexivity|])); exact Htail.
Qed.

Lemma result_layout_with_eight_byte_pointers_witness :
  sizeof lp64 vvm_result_t = 64 /\
  result_offset lp64 "create_address" = 40 /\
  result_offset lp64 "padding" = 60.
Proof.
  destruct (result_layout_with_eight_byte_pointers lp64)
    as (_ & Hsize & _ & _ & _ & Hca & Hpad & _);
    [reflexivity | reflexivity | vm_compute; lia | right; right; right; reflexivity |].
  split; [exact Hsize|]. split; [exact Hca | exact Hpad].
Defined.

(** With pointers and [size_t] of 4 bytes the result is smaller than 64
    bytes, and how much depends on the alignment of [int64_t]: 48 bytes with
    the created address at offset 24 where it is aligned to 4 (32-bit x86),
    56 bytes with the created address at offset 28 where it is aligned to
    8. *)
Theorem result_size_with_four_byte_pointers (dm : data_model) :
  pointer_size dm = 4 ->
  size_t_size dm = 4 ->
  1 <= enum_size dm <= 4 ->
  (int64_align dm = 4 ->
   sizeof dm vvm_result_t = 48 /\
   result_offset dm "gas_left" = 4 /\
   result_offset dm "create_address" = 24) /\
  (int64_align dm = 8 ->
   sizeof dm vvm_result_t = 56 /\
   result_offset dm "gas_left" = 8 /\
   result_offset dm "create_address" = 28).
Proof.
  destruct dm as [p s e a]. simpl. intros -> -> He.
  assert (Hcases : e = 1 \/ e = 2 \/ e = 3 \/ e = 4) by lia.
  split; intros ->;
    destruct Hcases as [->|[->|[->| ->]]];
    repeat split; reflexivity.
Qed.

Lemma result_size_with_four_byte_pointers_witness :
  sizeof i386 vvm_result_t = 48 /\
  result_offset i386 "create_address" = 24 /\
  sizeof ilp32_aligned vvm_result_t = 56.
Proof.
  destruct (result_size_with_four_byte_pointers i386) as [H4 _];
    [reflexivity | reflexivity | vm_compute; lia |].
  destruct (result_size_with_four_byte_pointers ilp32_aligned) as [_ H8];
    [reflexivity | reflexivity | vm_compute; lia |].
  destruct (H4 eq_refl) as (Hsize & _ & Hca).
  destruct (H8 eq_refl) as (Hsize8 & _).
  split; [exact Hsize|]. split; [exact Hca | exact Hsize8].
Defined.

(** The layout of a message under the 64-bit data model: the three value
    fields take the first 72 bytes with no gap, the input pointer follows at
    once, and the record is 144 bytes, the last 4 of them in no field. *)
Theorem message_layout :
  field_offsets lp64 0 vvm_message_fields
  = [("destination", 0); ("sender", 20); ("value", 40); ("input_data", 72);
     ("input_size", 80); ("code_hash", 88); ("gas", 120); ("depth", 128);
     ("kind", 132); ("flags", 136)] /\
  sizeof lp64 (Lstruct vvm_message_fields) = 144 /\
  alignof lp64 (Lstruct vvm_message_fields) = 8 /\
  padding_bytes lp64 vvm_message_fields = 4.
Proof. repeat split; reflexivity. Qed.

(** The layout of the transaction context under the 64-bit data model: 128
    bytes, every one of them in a field. *)
Theorem tx_context_layout :
  field_offsets lp64 0 vvm_tx_context_fields
  = [("tx_gas_price", 0); ("tx_origin", 32); ("block_coinbase", 52);
     ("block_number", 72); ("block_timestamp", 80); ("block_gas_limit", 88);
     ("block_difficulty", 96)] /\
  sizeof lp64 (Lstruct vvm_tx_context_fields) = 128 /\
  padding_bytes lp64 vvm_tx_context_fields = 0.
Proof. repeat split; reflexivity. Qed.

(** The callback table is an array of ten function pointers in all but name:
    the member declared in place [i] is at offset [i] times the size of a
    pointer, and the table has no other bytes.  The context begins with the
    pointer to its table. *)
Theorem fn_table_layout (i : nat) (name : string) (f : c_fn_type) :
  vvm_context_fn_table_members !! i = Some (name, f) ->
  offsetof lp64 vvm_context_fn_table_fields name = Some (i * pointer_size lp64) /\
  sizeof lp64 (Lstruct vvm_context_fn_table_fields)
  = length vvm_context_fn_table_members * pointer_size lp64 /\
  offsetof lp64 vvm_context_fields "fn_table" = Some 0.
Proof.
  intros Hi.
  do 10 (destruct i as [|i]; [injection Hi as <- <-; repeat split; reflexivity|]).
  discriminate Hi.
Qed.

Lemma fn_table_layout_witness :
  offsetof lp64 vvm_context_fn_table_fields "call" = Some 48.
Proof.
  destruct (fn_table_layout 6 "call" vvm_call_fn eq_refl) as [Hoff _].
  exact Hoff.
Defined.

End LayoutMore.

(** ** Enumerations *)

Section Enumerations.
Local Open Scope Z_scope.

(** The status codes use every integer from -2 to 8 and no other. *)
Theorem status_code_values_are_dense (z : Z) :
  -2 <= z <= 8 <-> exists s, status_code_value s = z.
Proof.
  split.
  - intros Hz.
    assert (Hcases : z = -2 \/ z = -1 \/ z = 0 \/ z = 1 \/ z = 2 \/ z = 3 \/
                     z = 4 \/ z = 5 \/ z = 6 \/ z = 7 \/ z = 8) by lia.
    destruct Hcases as [->|[->|[->|[->|[->|[->|[->|[->|[->|[->| ->]]]]]]]]]].
    + by exists VVM_INTERNAL_ERROR.
    + by exists VVM_REJECTED.
    + by exists VVM_SUCCESS.
    + by exists VVM_FAILURE.
    + by exists VVM_OUT_OF_GAS.
    + by exists VVM_BAD_INSTRUCTION.
    + by exists VVM_BAD_JUMP_DESTINATION.
    + by exists VVM_STACK_OVERFLOW.
    + by exists VVM_STACK_UNDERFLOW.
    + by exists VVM_REVERT.
    + by exists VVM_STATIC_MODE_ERROR.
  - intros [s <-]. destruct s; simpl; lia.
Qed.

(** The four kinds of call have the values 0 to 3, one each. *)
Theorem call_kind_values (z : Z) :
  (0 <= z <= 3 <-> exists k, call_kind_value k = z) /\
  (forall k1 k2, call_kind_value k1 = call_kind_value k2 -> k1 = k2).
Proof.
  split; [split|].
  - intros Hz.
    assert (Hcases : z = 0 \/ z = 1 \/ z = 2 \/ z = 3) by lia.
    destruct Hcases as [->|[->|[->| ->]]].
    + by exists VVM_CALL.
    + by exists VVM_DELEGATECALL.
    + by exists VVM_CALLCODE.
    + by exists VVM_CREATE.
  - intros [k <-]. destruct k; simpl; lia.
  - intros k1 k2. destruct k1, k2; simpl; intros E; first [reflexivity | lia].
Qed.

(** The six revisions have the values 0 to 5, one each, rising in the order
    of their declaration from FRONTIER to CONSTANTINOPLE. *)
Theorem revision_values (z : Z) :
  (0 <= z <= 5 <-> exists r, revision_value r = z) /\
  (forall r1 r2, revision_value r1 = revision_value r2 -> r1 = r2) /\
  revision_value
    <$> [VVM_FRONTIER; VVM_HOMESTEAD; VVM_TANGERINE_WHISTLE;
         VVM_SPURIOUS_DRAGON; VVM_BYZANTIUM; VVM_CONSTANTINOPLE]
  = [0; 1; 2; 3; 4; 5].
Proof.
  split; [split|split].
  - intros Hz.
    assert (Hcases : z = 0 \/ z = 1 \/ z = 2 \/ z = 3 \/ z = 4 \/ z = 5) by lia.
    destruct Hcases as [->|[->|[->|[->|[->| ->]]]]].
    + by exists VVM_FRONTIER.
    + by exists VVM_HOMESTEAD.
    + by exists VVM_TANGERINE_WHISTLE.
    + by exists VVM_SPURIOUS_DRAGON.
    + by exists VVM_BYZANTIUM.
    + by exists VVM_CONSTANTINOPLE.
  - intros [r <-]. destruct r; simpl; lia.
  - intros r1 r2. destruct r1, r2; simpl; intros E; first [reflexivity | lia].
  - reflexivity.
Qed.

End Enumerations.

(** ** What the callbacks can write and give back *)

(** A callback can write through its output parameter and through the
    context, and through nothing else: every other pointer or array it is
    given has [const] elements.  The release function of a result cannot
    write to the result at all. *)
Theorem callbacks_write_only_through_result_and_context :
  Forall (fun f =>
            writable_params f.2
            = filter (fun p => param_out p = true \/ param_type p = context_ptr)
                (fn_params f.2))
    vvm_context_fn_table_members /\
  writable_params vvm_release_result_fn = [].
Proof.
  split; [|reflexivity].
  unfold vvm_context_fn_table_members. repeat constructor.
Qed.

(** [set_storage], [selfdestruct] and [emit_log] give nothing back, neither
    a return value nor an output parameter, so the Host has no way to report
    that one of them failed.  [get_code] gives back two things, the size and
    the code; every other callback gives back exactly one. *)
Theorem callbacks_result_channels :
  (fun f => (f.1, result_channels f.2)) <$> vvm_context_fn_table_members
  = [("account_exists", 1%nat); ("get_storage", 1%nat); ("set_storage", 0%nat);
     ("get_balance", 1%nat); ("get_code", 2%nat); ("selfdestruct", 0%nat);
     ("call", 1%nat); ("get_tx_context", 1%nat); ("get_block_hash", 1%nat);
     ("emit_log", 0%nat)] /\
  fst <$> filter (fun f => result_channels f.2 = 0%nat)
            vvm_context_fn_table_members
  = ["set_storage"; "selfdestruct"; "emit_log"].
Proof. split; reflexivity. Qed.
